(** * Minimum consensus fee ante decorator (x/rewards/ante/min_cons_fee.go)

    A shallow embedding of [MinFeeDecorator.AnteHandle] and of
    [MinFeeDecorator.getContractFlatFees], together with the parts of the
    cosmos-sdk value types ([sdk.Int], [sdk.Dec], [sdk.Coin], [sdk.Coins])
    that the decorator calls.

    Conventions.
    - A Go pair [(v, err)] whose value is only read when [err == nil] is a
      sum; the pair returned by [getContractFlatFees] is kept as a pair,
      because its last statement returns both components.
    - The keeper and the codec are Go interfaces; they are type classes here.
    - [next(ctx, tx, simulate)] is a tail call to the rest of the ante chain;
      the decorator's result records that call instead of running it.
    - A panic of the library on a denomination that is not well formed
      ([mustValidateDenom]) is a result of its own, [Panics], and an
      outcome of its own for the decorator, [Panic].
    - [sdk.Int] and [sdk.Dec] wrap [math/big] integers.  The library panics
      when a result leaves its bit-length bound (256 bits for [Int]); the
      embedding describes the runs in which it does not, with amounts in
      [Z]. *)

From Stdlib Require Import ZArith NArith List String Ascii Bool Lia.
From Stdlib Require Import DecimalString.
Import ListNotations.

Local Open Scope string_scope.
Local Open Scope list_scope.
Local Open Scope Z_scope.

(** ** cosmos-sdk/types/errors *)

Module sdkErrors.

(** The registered errors the decorator wraps. *)
Inductive Sentinel : Type :=
| ErrTxDecode
| ErrInvalidRequest
| ErrUnauthorized
| ErrInsufficientFee.

(** A Go [error] value.  [Wrapped e format args] is [Wrapf(e, format,
    args...)], the arguments kept unformatted; [Plain msg] is an error a
    library builds with [errors.New] or [fmt.Errorf]. *)
Inductive error (A : Type) : Type :=
| Wrapped (e : Sentinel) (format : string) (args : list A)
| Plain (msg : string).

Arguments Wrapped {A} e format args.
Arguments Plain {A} msg.

Definition Wrap {A} (e : Sentinel) (description : string) : error A :=
  Wrapped e description [].

Definition Wrapf {A} (e : Sentinel) (format : string) (args : list A)
  : error A :=
  Wrapped e format args.

(** The registered error a Go error wraps, as [errors.Is] sees it. *)
Definition sentinelOf {A} (err : error A) : option Sentinel :=
  match err with
  | Wrapped e _ _ => Some e
  | Plain _ => None
  end.

End sdkErrors.

(** ** cosmos-sdk/types: Int, Dec, Coin, DecCoin, Coins *)

Module sdk.

Import sdkErrors.

(** [sdk.Int]: a [big.Int]. *)
Definition Int : Type := Z.

Definition ZeroInt : Int := 0.
Definition Int_IsZero (i : Int) : bool := i =? 0.
Definition Int_IsPositive (i : Int) : bool := 0 <? i.
Definition Int_GTE (i i2 : Int) : bool := i2 <=? i.
Definition NewIntFromUint64 (n : N) : Int := Z.of_N n.

(** [sdk.Dec]: a fixed-point decimal; [Dec_i] is the value times
    [10^Precision]. *)
Record Dec : Type := mkDec { Dec_i : Z }.

Definition Precision : Z := 18.
Definition precisionReuse : Z := 10 ^ Precision.
Definition fivePrecision : Z := precisionReuse / 2.

(** [chopPrecisionAndRound] on a non-negative argument: truncated quotient
    and remainder by [10^18], then the remainder decides; on a remainder
    of exactly one half the quotient is rounded to the even neighbour. *)
Definition chopNonNeg (d : Z) : Z :=
  let quo := Z.quot d precisionReuse in
  let rem := Z.rem d precisionReuse in
  if rem =? 0 then quo
  else
    match rem ?= fivePrecision with
    | Lt => quo
    | Gt => quo + 1
    | Eq => if Z.testbit quo 0 then quo + 1 else quo
    end.

(** [chopPrecisionAndRound]: a negative argument is negated, chopped and
    negated back. *)
Definition chopPrecisionAndRound (d : Z) : Z :=
  if d <? 0 then - chopNonNeg (- d) else chopNonNeg d.

Definition Dec_IsZero (d : Dec) : bool := Dec_i d =? 0.

Definition Dec_Mul (d d2 : Dec) : Dec :=
  mkDec (chopPrecisionAndRound (Dec_i d * Dec_i d2)).

Definition Dec_RoundInt (d : Dec) : Int :=
  chopPrecisionAndRound (Dec_i d).

Definition NewDecFromInt (i : Int) : Dec := mkDec (i * precisionReuse).

Record Coin : Type := mkCoin { Denom : string; Amount : Int }.

Record DecCoin : Type := mkDecCoin { DecCoin_Denom : string; DecCoin_Amount : Dec }.

Definition Coins : Type := list Coin.

Definition Coin_IsZero (coin : Coin) : bool := Int_IsZero (Amount coin).
Definition Coin_IsPositive (coin : Coin) : bool := Int_IsPositive (Amount coin).
Definition DecCoin_IsZero (coin : DecCoin) : bool :=
  Dec_IsZero (DecCoin_Amount coin).

(** [Coin.Add]; the library panics on different denominations, and
    [safeAdd] calls it on equal ones only. *)
Definition Coin_Add (coin coinB : Coin) : Coin :=
  mkCoin (Denom coin) (Amount coin + Amount coinB).

Definition removeZeroCoins (coins : Coins) : Coins :=
  filter (fun c => negb (Coin_IsZero c)) coins.

Definition appendNonZero (coin : Coin) (rest : Coins) : Coins :=
  if Coin_IsZero coin then rest else coin :: rest.

(** [Coins.safeAdd]: the merge of two denomination-sorted coin sets,
    equal denominations summed, zero coins dropped. *)
Fixpoint safeAdd (coins : Coins) : Coins -> Coins :=
  match coins with
  | [] => fun coinsB => removeZeroCoins coinsB
  | coinA :: restA =>
      fix scanB (coinsB : Coins) : Coins :=
        match coinsB with
        | [] => removeZeroCoins (coinA :: restA)
        | coinB :: restB =>
            match String.compare (Denom coinA) (Denom coinB) with
            | Lt => appendNonZero coinA (safeAdd restA (coinB :: restB))
            | Eq => appendNonZero (Coin_Add coinA coinB) (safeAdd restA restB)
            | Gt => appendNonZero coinB (scanB restB)
            end
        end
  end.

(** [Coins.Add]: returns the sum as a new value; the receiver is passed by
    value and is left as it was. *)
Definition Coins_Add (coins : Coins) (coinsB : Coins) : Coins :=
  safeAdd coins coinsB.

Definition isLetter (c : ascii) : bool :=
  let n := nat_of_ascii c in
  ((65 <=? n) && (n <=? 90) || (97 <=? n) && (n <=? 122))%nat.

Definition isDenomChar (c : ascii) : bool :=
  let n := nat_of_ascii c in
  (isLetter c || (48 <=? n) && (n <=? 57) || (n =? 47) || (n =? 45))%nat.

(** [reDnm.MatchString]: the whole denomination matches
    [[a-zA-Z][a-zA-Z0-9/-]{2,127}]. *)
Definition reDnmMatch (denom : string) : bool :=
  match list_ascii_of_string denom with
  | [] => false
  | c :: rest =>
      (isLetter c && forallb isDenomChar rest
       && (2 <=? List.length rest) && (List.length rest <=? 127))%nat
  end.

(** [ValidateDenom]; [None] is the nil error. *)
Definition ValidateDenom (denom : string) : option (error Coins) :=
  if reDnmMatch denom then None
  else Some (Plain ("invalid denom: " ++ denom)%string).

(** A call that may panic: its value, or the value given to [panic]. *)
Inductive mayPanic (A : Type) : Type :=
| Done (a : A)
| Panics (v : error Coins).

Arguments Done {A} a.
Arguments Panics {A} v.

(** [mustValidateDenom]: panics with the error of [ValidateDenom]. *)
Definition mustValidateDenom (denom : string) : mayPanic unit :=
  match ValidateDenom denom with
  | Some err => Panics err
  | None => Done tt
  end.

(** [Int.String] and [Coin.String]: the amount in decimal, then the
    denomination. *)
Definition Int_String (i : Int) : string :=
  NilZero.string_of_int (Z.to_int i).

Definition Coin_String (coin : Coin) : string :=
  (Int_String (Amount coin) ++ Denom coin)%string.

(** The loop of [Coins.Validate] over [coins[1:]]; [seen] is the set of
    denominations met so far and [lowDenom] the last one. *)
Fixpoint validateRest (seen : list string) (lowDenom : string)
    (coins : Coins) : option (error Coins) :=
  match coins with
  | [] => None
  | coin :: rest =>
      if existsb (String.eqb (Denom coin)) seen
      then Some (Plain ("duplicate denomination " ++ Denom coin)%string)
      else
        match ValidateDenom (Denom coin) with
        | Some err => Some err
        | None =>
            if String.leb (Denom coin) lowDenom
            then Some (Plain ("denomination " ++ Denom coin
                              ++ " is not sorted")%string)
            else if negb (Coin_IsPositive coin)
            then Some (Plain ("coin " ++ Denom coin
                              ++ " amount is not positive")%string)
            else validateRest (Denom coin :: seen) (Denom coin) rest
        end
  end.

(** [Coins.Validate]; [None] is the nil error. *)
Definition Coins_Validate (coins : Coins) : option (error Coins) :=
  match coins with
  | [] => None
  | coin :: rest =>
      match ValidateDenom (Denom coin) with
      | Some err => Some err
      | None =>
          if negb (Coin_IsPositive coin)
          then Some (Plain ("coin " ++ Coin_String coin
                            ++ " amount is not positive")%string)
          else validateRest [Denom coin] (Denom coin) rest
      end
  end.

(** [Coins.AmountOfNoDenomValidation]: binary search by denomination;
    [steps] bounds the halvings and is the length of the set at the entry
    point. *)
Fixpoint amountOfSteps (steps : nat) (coins : Coins) (denom : string) : Int :=
  match coins with
  | [] => ZeroInt
  | [coin] => if String.eqb (Denom coin) denom then Amount coin else ZeroInt
  | _ =>
      match steps with
      | O => ZeroInt
      | S steps' =>
          let midIdx := Nat.div (List.length coins) 2 in
          match nth_error coins midIdx with
          | None => ZeroInt
          | Some coin =>
              match String.compare denom (Denom coin) with
              | Lt => amountOfSteps steps' (firstn midIdx coins) denom
              | Eq => Amount coin
              | Gt => amountOfSteps steps' (skipn (S midIdx) coins) denom
              end
          end
      end
  end.

(** [Coins.AmountOf]: [mustValidateDenom] on the denomination asked for,
    then the search. *)
Definition Coins_AmountOf (coins : Coins) (denom : string) : mayPanic Int :=
  match mustValidateDenom denom with
  | Panics v => Panics v
  | Done _ => Done (amountOfSteps (List.length coins) coins denom)
  end.

(** The loop of [Coins.IsAnyGTE] over the receiver: it returns true at the
    first coin whose denomination [coinsB] holds with a non-zero amount not
    above the coin's, and panics at the first coin, if it comes before,
    whose denomination is not well formed. *)
Fixpoint anyGTE (coins coinsB : Coins) : mayPanic bool :=
  match coins with
  | [] => Done false
  | coin :: rest =>
      match Coins_AmountOf coinsB (Denom coin) with
      | Panics v => Panics v
      | Done amt =>
          if Int_GTE (Amount coin) amt && negb (Int_IsZero amt)
          then Done true
          else anyGTE rest coinsB
      end
  end.

(** [Coins.IsAnyGTE]. *)
Definition Coins_IsAnyGTE (coins coinsB : Coins) : mayPanic bool :=
  match coinsB with
  | [] => Done false
  | _ => anyGTE coins coinsB
  end.

End sdk.

(** ** cosmos-sdk/codec/types, wasmd/x/wasm/types, cosmos-sdk/x/authz *)

Module codectypes.

(** [Any]: a type URL and the encoded bytes of a message. *)
Record Any : Type := mkAny { TypeUrl : string; Value : list Byte.byte }.

End codectypes.

Module wasmTypes.

(** [MsgExecuteContract]; of its fields the decorator reads [Contract]. *)
Record MsgExecuteContract : Type :=
  mkMsgExecuteContract { Sender : string; Contract : string }.

End wasmTypes.

Module authz.

(** [MsgExec]: the grantee and the wrapped, still encoded, messages. *)
Record MsgExec : Type :=
  mkMsgExec { Grantee : string; Msgs : list codectypes.Any }.

End authz.

(** ** archway/pkg *)

Module pkg.

(** Modelled from the spec: [pkg.NewDecFromUint64] (package [pkg] of this
    repository, whose file is not among the sources), the gas limit, a
    non-negative integer, as a decimal of the same value. *)
Definition NewDecFromUint64 (v : N) : sdk.Dec :=
  sdk.NewDecFromInt (sdk.NewIntFromUint64 v).

End pkg.

(** ** x/rewards/ante *)

Module ante.

Import sdkErrors sdk codectypes.

Definition error : Type := sdkErrors.error Coins.

(** [sdk.AccAddress]: the raw bytes of an account address. *)
Definition AccAddress : Type := list Byte.byte.

(** [sdk.Msg] as the type switch of [getContractFlatFees] sees it: the two
    cases it names, and every other value (the nil interface included). *)
Inductive Msg : Type :=
| MsgExecuteContract (msg : wasmTypes.MsgExecuteContract)
| MsgExec (msg : authz.MsgExec)
| MsgOther.

(** [sdk.FeeTx]: what the decorator reads through the interface. *)
Record FeeTx : Type := mkFeeTx { GetGas : N; GetFee : Coins }.

(** [sdk.Tx]: its messages, and the result of the type assertion
    [tx.(sdk.FeeTx)] ([None] when the assertion fails). *)
Record Tx : Type := mkTx { GetMsgs : list Msg; asFeeTx : option FeeTx }.

(** [RewardsFeeReaderExpected]: the x/rewards keeper as the decorator
    expects it; a Go result [(v, found)] is an option. *)
Class RewardsFeeReaderExpected (Context K : Type) : Type := {
  GetMinConsensusFee : K -> Context -> option DecCoin;
  GetFlatFee : K -> Context -> AccAddress -> option Coin
}.

(** [codec.BinaryCodec], of which the decorator calls [UnpackAny]; [None]
    is a non-nil error. *)
Class BinaryCodec (C : Type) : Type := {
  UnpackAny : C -> Any -> option Msg
}.

Section Decorator.

Context {Context K C : Type}.
Context `{RK : RewardsFeeReaderExpected Context K} `{CD : BinaryCodec C}.

(** [sdk.AccAddressFromBech32], which depends on the chain's address
    prefix. *)
Variable AccAddressFromBech32 : string -> AccAddress + error.

Record MinFeeDecorator : Type :=
  NewMinFeeDecorator { codec : C; rewardsKeeper : K }.

(** How [AnteHandle] ends: with the tail call [next(ctx, tx, simulate)],
    with the return of [(ctx, err)], or with a panic of the library. *)
Inductive Outcome : Type :=
| Next (ctx : Context) (tx : Tx) (simulate : bool)
| Return (ctx : Context) (err : error)
| Panic (v : error).

(** [for _, fee := range fees { flatfee.Add(fee) }]: every sum is
    computed and dropped, [flatfee] is not assigned. *)
Definition addEach (flatfee fees : Coins) : Coins :=
  fold_left
    (fun flatfee fee => let _ := Coins_Add flatfee [fee] in flatfee)
    fees flatfee.

(** The loop of the [*authz.MsgExec] case over [msg.Msgs]; [recur] is
    the recursive call, [None] when its call depth is used up. *)
Fixpoint rangeWrapped (recur : Msg -> option (Coins * option error))
    (cdc : C) (flatfee : Coins) (vs : list Any) : option (Coins + error) :=
  match vs with
  | [] => Some (inl flatfee)
  | v :: rest =>
      match UnpackAny cdc v with
      | None =>
          Some (inr (Wrapf ErrUnauthorized "error decoding authz messages" []))
      | Some wrappedMsg =>
          match recur wrappedMsg with
          | None => None
          | Some (_, Some err) => Some (inr err)
          | Some (fees, None) =>
              rangeWrapped recur cdc (addEach flatfee fees) rest
          end
      end
  end.

(** [getContractFlatFees]; [depth] bounds the depth of the calls, and
    [None] says that the bound was reached. *)
Fixpoint getContractFlatFees (depth : nat) (mfd : MinFeeDecorator)
    (ctx : Context) (m : Msg) : option (Coins * option error) :=
  match depth with
  | O => None
  | S depth' =>
      let flatfee : Coins := [] in
      match m with
      | MsgExecuteContract msg =>
          match AccAddressFromBech32 (wasmTypes.Contract msg) with
          | inr err => Some ([], Some err)
          | inl ca =>
              let flatfee :=
                match GetFlatFee (rewardsKeeper mfd) ctx ca with
                | Some fee => let _ := Coins_Add flatfee [fee] in flatfee
                | None => flatfee
                end in
              Some (flatfee, Coins_Validate flatfee)
          end
      | MsgExec msg =>
          match rangeWrapped (getContractFlatFees depth' mfd ctx)
                  (codec mfd) flatfee (authz.Msgs msg) with
          | None => None
          | Some (inr err) => Some ([], Some err)
          | Some (inl flatfee) => Some (flatfee, Coins_Validate flatfee)
          end
      | MsgOther => Some (flatfee, Coins_Validate flatfee)
      end
  end.

(** The loop of [AnteHandle] over [tx.GetMsgs()]. *)
Fixpoint rangeMsgs (recur : Msg -> option (Coins * option error))
    (flatfee : Coins) (msgs : list Msg) : option (Coins + error) :=
  match msgs with
  | [] => Some (inl flatfee)
  | m :: rest =>
      match recur m with
      | None => None
      | Some (_, Some err) => Some (inr err)
      | Some (fees, None) => rangeMsgs recur (addEach flatfee fees) rest
      end
  end.

(** [minFeeExpected]: the price's denomination and the rounded product
    of the price and the gas limit. *)
Definition minFeeExpected (gasUnitPrice : DecCoin) (txGasLimit : Dec) : Coin :=
  mkCoin (DecCoin_Denom gasUnitPrice)
         (Dec_RoundInt (Dec_Mul (DecCoin_Amount gasUnitPrice) txGasLimit)).

(** [AnteHandle]; [depth] is handed to [getContractFlatFees]. *)
Definition AnteHandle (depth : nat) (mfd : MinFeeDecorator)
    (ctx : Context) (tx : Tx) (simulate : bool) : option Outcome :=
  if simulate then Some (Next ctx tx simulate)
  else
    match asFeeTx tx with
    | None => Some (Return ctx (Wrap ErrTxDecode "Tx must be a FeeTx"))
    | Some feeTx =>
        match GetMinConsensusFee (rewardsKeeper mfd) ctx with
        | None => Some (Next ctx tx simulate)
        | Some gasUnitPrice =>
            if DecCoin_IsZero gasUnitPrice then Some (Next ctx tx simulate)
            else
              let txFees := GetFee feeTx in
              let txGasLimit := pkg.NewDecFromUint64 (GetGas feeTx) in
              if Dec_IsZero txGasLimit
              then Some (Return ctx
                           (Wrap ErrInvalidRequest "tx gas limit is not set"))
              else
                let minFee := minFeeExpected gasUnitPrice txGasLimit in
                match rangeMsgs (getContractFlatFees depth mfd ctx) []
                        (GetMsgs tx) with
                | None => None
                | Some (inr err) => Some (Return ctx err)
                | Some (inl _) =>
                    if Int_IsZero (Amount minFee)
                    then Some (Next ctx tx simulate)
                    else
                      match Coins_IsAnyGTE txFees [minFee] with
                      | Panics v => Some (Panic v)
                      | Done true => Some (Next ctx tx simulate)
                      | Done false =>
                          Some (Return ctx
                                  (Wrapf ErrInsufficientFee
                                     "tx fee %s is less than min fee: %s"
                                     [txFees; [minFee]]))
                      end
                end
        end
    end.

End Decorator.

End ante.

Import sdkErrors sdk codectypes ante.

(** ** Notions of the specification *)

Module spec.

(** The integer nearest to [x / 10^18], a tie going to the neighbour away
    from zero: the rounding the specification names for MinFeeExpected. *)
Definition roundHalfAwayFromZero (x : Z) : Z :=
  Z.sgn x * ((2 * Z.abs x + precisionReuse) / (2 * precisionReuse)).

(** The integer nearest to [x / 10^18], a tie going to the even
    neighbour, written with the floor and the non-negative remainder. *)
Definition roundHalfToEven (x : Z) : Z :=
  let q := x / precisionReuse in
  let r := x mod precisionReuse in
  if 2 * r <? precisionReuse then q
  else if precisionReuse <? 2 * r then q + 1
  else if Z.even q then q else q + 1.

(** The exact product of a price and a gas limit, times [10^18]. *)
Definition scaledProduct (gasUnitPrice : DecCoin) (gas : N) : Z :=
  Dec_i (DecCoin_Amount gasUnitPrice) * Z.of_N gas.

(** The comparison of step 6: the minimum is zero, or some declared fee
    entry has the minimum's denomination and at least its amount. *)
Definition feeCovers (txFees : Coins) (minFee : Coin) : Prop :=
  Amount minFee = 0
  \/ exists coin, In coin txFees
                  /\ Denom coin = Denom minFee
                  /\ Amount minFee <= Amount coin.

(** The error of the [*authz.MsgExec] case for a wrapped message that does
    not decode. *)
Definition unauthorized : error :=
  Wrapf ErrUnauthorized "error decoding authz messages" [].

(** A verdict: the transaction goes on (Proceed), is rejected with an
    error, or the check panics. *)
Inductive Verdict : Type :=
| Proceeds
| Rejects (err : error)
| Crashes (v : error).

(** The verdict of an outcome. *)
Definition verdict {Context : Type} (o : @Outcome Context) : Verdict :=
  match o with
  | Next _ _ _ => Proceeds
  | Return _ err => Rejects err
  | Panic v => Crashes v
  end.

(** The verdict as a function of the declared fee, the gas limit and the
    minimum price alone (steps 3, 4, 6 and 7 of the algorithm). *)
Definition decision (txFees : Coins) (gas : N) (gasUnitPrice : DecCoin)
  : Verdict :=
  if N.eqb gas 0 then Rejects (Wrap ErrInvalidRequest "tx gas limit is not set")
  else
    let minFee := minFeeExpected gasUnitPrice (pkg.NewDecFromUint64 gas) in
    if Int_IsZero (Amount minFee) then Proceeds
    else
      match Coins_IsAnyGTE txFees [minFee] with
      | Panics v => Crashes v
      | Done true => Proceeds
      | Done false =>
          Rejects (Wrapf ErrInsufficientFee "tx fee %s is less than min fee: %s"
                     [txFees; [minFee]])
      end.

(** Every denomination of a declared fee is well formed. *)
Definition wellFormed (txFees : Coins) : Prop :=
  Forall (fun coin => reDnmMatch (Denom coin) = true) txFees.

Section Discovery.

Context {Context K C : Type}.
Context `{RK : RewardsFeeReaderExpected Context K} `{CD : BinaryCodec C}.
Variable AccAddressFromBech32 : string -> AccAddress + error.
Variable mfd : @MinFeeDecorator K C.
Variable ctx : Context.

(** Flat-fee discovery succeeds on a message: some call depth gives a
    result with a nil error. *)
Definition discovers (m : Msg) : Prop :=
  exists depth fees,
    getContractFlatFees AccAddressFromBech32 depth mfd ctx m
    = Some (fees, None).

(** Every wrapped message of [vs] decodes to a message on which
    discovery succeeds. *)
Definition allDiscover (vs : list Any) : Prop :=
  Forall (fun v => exists m, UnpackAny (codec mfd) v = Some m /\ discovers m)
         vs.

(** The message tree under [m] is finite: below every [MsgExec], each
    wrapped message that decodes has a finite tree. *)
Inductive FiniteTree : Msg -> Prop :=
| FiniteContract msg : FiniteTree (MsgExecuteContract msg)
| FiniteOther : FiniteTree MsgOther
| FiniteExec msg :
    (forall v m, In v (authz.Msgs msg) ->
                 UnpackAny (codec mfd) v = Some m -> FiniteTree m) ->
    FiniteTree (MsgExec msg).

(** In iteration order, the first failure under [m] is a wrapped message
    of some [MsgExec] that the codec cannot decode. *)
Inductive UndecodableFirst : Msg -> Prop :=
| UndecodableHere msg pre v post :
    authz.Msgs msg = pre ++ v :: post ->
    allDiscover pre ->
    UnpackAny (codec mfd) v = None ->
    UndecodableFirst (MsgExec msg)
| UndecodableBelow msg pre v m post :
    authz.Msgs msg = pre ++ v :: post ->
    allDiscover pre ->
    UnpackAny (codec mfd) v = Some m ->
    UndecodableFirst m ->
    UndecodableFirst (MsgExec msg).

(** Everything under [m] can be read: each contract address parses, and
    below every [MsgExec] each wrapped message decodes, to a message that
    can be read in turn. *)
Inductive Readable : Msg -> Prop :=
| ReadableContract msg ca :
    AccAddressFromBech32 (wasmTypes.Contract msg) = inl ca ->
    Readable (MsgExecuteContract msg)
| ReadableOther : Readable MsgOther
| ReadableExec msg :
    (forall v, In v (authz.Msgs msg) -> UnpackAny (codec mfd) v <> None) ->
    (forall v m, In v (authz.Msgs msg) ->
                 UnpackAny (codec mfd) v = Some m -> Readable m) ->
    Readable (MsgExec msg).

End Discovery.

End spec.

(** ** Concrete collaborators, for evaluating the decorator *)

Module fixtures.

(** A registry snapshot: the minimum consensus fee, and a table of flat
    fees by contract address. *)
Record FeeRegistry : Type := mkFeeRegistry {
  minConsensusFee : option DecCoin;
  flatFees : list (string * Coin)
}.

Definition bytesOf (s : string) : AccAddress := list_byte_of_string s.

Fixpoint lookupFlatFee (table : list (string * Coin)) (addr : AccAddress)
    : option Coin :=
  match table with
  | [] => None
  | (a, fee) :: rest =>
      if list_eq_dec Byte.byte_eq_dec (bytesOf a) addr
      then Some fee else lookupFlatFee rest addr
  end.

#[export] Instance registryReader : RewardsFeeReaderExpected unit FeeRegistry := {
  GetMinConsensusFee := fun k _ => minConsensusFee k;
  GetFlatFee := fun k _ addr => lookupFlatFee (flatFees k) addr
}.

(** A codec given by its decoding function. *)
Record FnCodec : Type := mkFnCodec { decode : Any -> option Msg }.

#[export] Instance fnCodec : BinaryCodec FnCodec := {
  UnpackAny := fun c v => decode c v
}.

(** An address parser that rejects the empty string, as the library
    does, and takes the bytes of any other. *)
Definition parseAddress (s : string) : AccAddress + error :=
  if String.eqb s "" then inr (Plain "empty address string is not allowed")
  else inl (bytesOf s).

Definition wasmUrl : string := "/cosmwasm.wasm.v1.MsgExecuteContract".
Definition authzUrl : string := "/cosmos.authz.v1beta1.MsgExec".

Definition stringOf (bs : list Byte.byte) : string := string_of_list_byte bs.

(** Decodes an [Any] of the wasm URL to an execution message whose
    contract is spelled by the value bytes; nothing else decodes. *)
Definition wasmOnly : FnCodec :=
  mkFnCodec (fun v =>
    if String.eqb (TypeUrl v) wasmUrl
    then Some (MsgExecuteContract
                 (wasmTypes.mkMsgExecuteContract "" (stringOf (Value v))))
    else None).

Definition wasmAny (contract : string) : Any :=
  mkAny wasmUrl (bytesOf contract).

(** Decodes an [Any] with [n + 1] value bytes to a [MsgExec] wrapping the
    [Any] with [n], and one with no value bytes to another message. *)
Definition chain : FnCodec :=
  mkFnCodec (fun v =>
    match Value v with
    | [] => Some MsgOther
    | _ :: bs => Some (MsgExec (authz.mkMsgExec "" [mkAny (TypeUrl v) bs]))
    end).

Definition chainAny (n : nat) : Any := mkAny authzUrl (repeat Byte.x00 n).

(** [n] delegated wrappers, one inside the other, around another message. *)
Definition delegated (n : nat) : Msg :=
  match n with
  | O => MsgOther
  | S n' => MsgExec (authz.mkMsgExec "" [chainAny n'])
  end.

Definition uarch (amount : Z) : Coin := mkCoin "uarch" amount.

(** A decimal from its value times [10^18]. *)
Definition price (denom : string) (scaled : Z) : DecCoin :=
  mkDecCoin denom (mkDec scaled).

(** Minimum price 0.0025 uarch; flat fees 100 uarch for contract [c1] and
    50 uarch for contract [c2]. *)
Definition registry : FeeRegistry :=
  mkFeeRegistry (Some (price "uarch" 2500000000000000))
                [("c1", uarch 100); ("c2", uarch 50)].

Definition decorator (k : FeeRegistry) (c : FnCodec)
  : @MinFeeDecorator FeeRegistry FnCodec :=
  NewMinFeeDecorator c k.

Definition execute (contract : string) : Msg :=
  MsgExecuteContract (wasmTypes.mkMsgExecuteContract "sender" contract).

Definition exec (vs : list Any) : Msg :=
  MsgExec (authz.mkMsgExec "grantee" vs).

(** The decorator over [registry] and the [wasmOnly] codec. *)
Definition checker : @MinFeeDecorator FeeRegistry FnCodec :=
  decorator registry wasmOnly.

(** A fee transaction. *)
Definition feeTx (gas : N) (fee : Coins) (msgs : list Msg) : Tx :=
  mkTx msgs (Some (mkFeeTx gas fee)).

(** A transaction that is not a [FeeTx]. *)
Definition plainTx (msgs : list Msg) : Tx := mkTx msgs None.

(** [registry] with other flat fees, and without a minimum price. *)
Definition otherFlatFees : FeeRegistry :=
  mkFeeRegistry (minConsensusFee registry) [("c1", uarch 7); ("c3", uarch 9)].

Definition noPrice : FeeRegistry := mkFeeRegistry None (flatFees registry).

(** An [Any] that [wasmOnly] does not decode. *)
Definition opaqueAny : Any := mkAny "/unknown" [].

End fixtures.

(** ** Properties of the decorator *)

Section Properties.

Context {Context K C : Type}.
Context `{RK : RewardsFeeReaderExpected Context K} `{CD : BinaryCodec C}.
Variable AccAddressFromBech32 : string -> AccAddress + error.

Local Abbreviation flatFees := (getContractFlatFees AccAddressFromBech32).
Local Abbreviation handle := (AnteHandle AccAddressFromBech32).

(** *** The accumulator is never assigned *)

Lemma addEach_keeps (flatfee fees : Coins) : addEach flatfee fees = flatfee.
Proof.
  unfold addEach. revert flatfee.
  induction fees as [|fee fees IH]; intros flatfee; simpl; auto.
Qed.

Lemma rangeWrapped_keeps recur (cdc : C) flatfee vs total :
  rangeWrapped recur cdc flatfee vs = Some (inl total) -> total = flatfee.
Proof.
  revert flatfee. induction vs as [|v vs IH]; intros flatfee; simpl.
  - intros E. now inversion E.
  - destruct (UnpackAny cdc v) as [m|]; [|discriminate].
    destruct (recur m) as [[fees [err|]]|]; try discriminate.
    intros E. apply IH in E. now rewrite addEach_keeps in E.
Qed.

Lemma rangeMsgs_keeps recur flatfee msgs total :
  rangeMsgs recur flatfee msgs = Some (inl total) -> total = flatfee.
Proof.
  revert flatfee. induction msgs as [|m msgs IH]; intros flatfee; simpl.
  - intros E. now inversion E.
  - destruct (recur m) as [[fees [err|]]|]; try discriminate.
    intros E. apply IH in E. now rewrite addEach_keeps in E.
Qed.

(** Whatever [getContractFlatFees] returns, its coins are empty. *)
Lemma getContractFlatFees_empty depth mfd (ctx : Context) m fees err :
  flatFees depth mfd ctx m = Some (fees, err) -> fees = [].
Proof.
  destruct depth as [|depth]; simpl; [discriminate|].
  destruct m as [msg|msg|].
  - destruct (AccAddressFromBech32 _) as [ca|e].
    + destruct (GetFlatFee _ _ _); simpl; intros E; now inversion E.
    + intros E; now inversion E.
  - destruct (rangeWrapped _ _ _ _) as [[total|e]|] eqn:R; try discriminate.
    + apply rangeWrapped_keeps in R. subst total.
      intros E; now inversion E.
    + intros E; now inversion E.
  - intros E; now inversion E.
Qed.

(** *** A larger call depth does not change a result *)

Lemma rangeWrapped_mono (f g : Msg -> option (Coins * option error))
    (cdc : C) vs :
  (forall m r, f m = Some r -> g m = Some r) ->
  forall flatfee r,
    rangeWrapped f cdc flatfee vs = Some r ->
    rangeWrapped g cdc flatfee vs = Some r.
Proof.
  intros Hfg. induction vs as [|v vs IH]; intros flatfee r; simpl; auto.
  destruct (UnpackAny cdc v) as [m|]; auto.
  destruct (f m) as [[fees e]|] eqn:F; [|discriminate].
  rewrite (Hfg _ _ F). destruct e; auto.
Qed.

Lemma rangeMsgs_mono (f g : Msg -> option (Coins * option error)) msgs :
  (forall m r, f m = Some r -> g m = Some r) ->
  forall flatfee r,
    rangeMsgs f flatfee msgs = Some r -> rangeMsgs g flatfee msgs = Some r.
Proof.
  intros Hfg. induction msgs as [|m msgs IH]; intros flatfee r; simpl; auto.
  destruct (f m) as [[fees e]|] eqn:F; [|discriminate].
  rewrite (Hfg _ _ F). destruct e; auto.
Qed.

Lemma getContractFlatFees_step depth mfd (ctx : Context) m r :
  flatFees depth mfd ctx m = Some r -> flatFees (S depth) mfd ctx m = Some r.
Proof.
  revert m r. induction depth as [|depth IH]; intros m r; [discriminate|].
  intros E. destruct m as [msg|msg|]; try exact E.
  simpl in E.
  destruct (rangeWrapped (flatFees depth mfd ctx) _ _ _) as [s|] eqn:R;
    [|discriminate].
  apply (rangeWrapped_mono _ (flatFees (S depth) mfd ctx)) in R; [|exact IH].
  change (flatFees (S (S depth)) mfd ctx (MsgExec msg))
    with (match rangeWrapped (flatFees (S depth) mfd ctx)
                  (codec mfd) [] (authz.Msgs msg) with
          | None => None
          | Some (inr err) => Some ([], Some err)
          | Some (inl flatfee) => Some (flatfee, Coins_Validate flatfee)
          end).
  now rewrite R.
Qed.

Lemma getContractFlatFees_mono depth depth' mfd (ctx : Context) m r :
  (depth <= depth')%nat ->
  flatFees depth mfd ctx m = Some r -> flatFees depth' mfd ctx m = Some r.
Proof.
  induction 1 as [|depth' _ IH]; auto.
  intros E. apply getContractFlatFees_step. auto.
Qed.

Lemma handle_mono depth depth' mfd (ctx : Context) tx simulate o :
  (depth <= depth')%nat ->
  handle depth mfd ctx tx simulate = Some o ->
  handle depth' mfd ctx tx simulate = Some o.
Proof.
  intros Hle. unfold AnteHandle.
  destruct simulate; auto.
  destruct (asFeeTx tx) as [feeTx|]; auto.
  destruct (GetMinConsensusFee _ _) as [p|]; auto.
  destruct (DecCoin_IsZero p); auto.
  destruct (Dec_IsZero _); auto.
  destruct (rangeMsgs (flatFees depth mfd ctx) [] (GetMsgs tx)) as [s|] eqn:R;
    [|discriminate].
  apply (rangeMsgs_mono _ (flatFees depth' mfd ctx)) in R.
  - now rewrite R.
  - intros m r. now apply getContractFlatFees_mono.
Qed.

(** *** The steps before and after discovery *)

Lemma precisionReuse_pos : 0 < precisionReuse.
Proof. reflexivity. Qed.

Lemma gas_limit_zero (gas : N) :
  Dec_IsZero (pkg.NewDecFromUint64 gas) = true <-> gas = 0%N.
Proof.
  unfold Dec_IsZero, pkg.NewDecFromUint64, NewDecFromInt, NewIntFromUint64.
  simpl. rewrite Z.eqb_eq. pose proof precisionReuse_pos. split.
  - intros E. apply Z.mul_eq_0 in E. lia.
  - intros ->. reflexivity.
Qed.

(** When discovery succeeds on every message, the loop of [AnteHandle]
    runs to its end. *)
Lemma rangeMsgs_all (f : Msg -> option (Coins * option error)) msgs :
  Forall (fun m => exists fees, f m = Some (fees, None)) msgs ->
  forall flatfee, rangeMsgs f flatfee msgs = Some (inl flatfee).
Proof.
  induction 1 as [|m msgs [fees Hm] _ IH]; intros flatfee; simpl; auto.
  rewrite Hm, addEach_keeps. apply IH.
Qed.

(** The first message on which discovery fails ends the loop with its
    error. *)
Lemma rangeMsgs_first_error (f : Msg -> option (Coins * option error))
    pre m post fees err :
  Forall (fun m => exists fees, f m = Some (fees, None)) pre ->
  f m = Some (fees, Some err) ->
  forall flatfee, rangeMsgs f flatfee (pre ++ m :: post) = Some (inr err).
Proof.
  intros Hpre Hm.
  induction Hpre as [|m0 pre [fees0 Hm0] _ IH]; intros flatfee; simpl.
  - now rewrite Hm.
  - rewrite Hm0. apply IH.
Qed.

Lemma AmountOf_single (minFee : Coin) (denom : string) :
  reDnmMatch denom = true ->
  Coins_AmountOf [minFee] denom
  = Done (if String.eqb (Denom minFee) denom then Amount minFee else 0).
Proof.
  intros Hd. unfold Coins_AmountOf, mustValidateDenom, ValidateDenom.
  now rewrite Hd.
Qed.

Lemma AmountOf_malformed (coins : Coins) (denom : string) :
  reDnmMatch denom = false ->
  Coins_AmountOf coins denom = Panics (Plain ("invalid denom: " ++ denom)%string).
Proof.
  intros Hd. unfold Coins_AmountOf, mustValidateDenom, ValidateDenom.
  now rewrite Hd.
Qed.

Lemma IsAnyGTE_single (txFees : Coins) (minFee : Coin) :
  spec.wellFormed txFees ->
  Coins_IsAnyGTE txFees [minFee]
  = Done (existsb (fun coin =>
                     String.eqb (Denom minFee) (Denom coin)
                     && (Amount minFee <=? Amount coin)
                     && negb (Amount minFee =? 0))
                  txFees).
Proof.
  unfold Coins_IsAnyGTE.
  induction 1 as [|coin txFees Hd _ IH]; [reflexivity|].
  cbn [anyGTE existsb]. rewrite (AmountOf_single _ _ Hd), IH.
  unfold Int_GTE, Int_IsZero.
  destruct (String.eqb (Denom minFee) (Denom coin)); cbn [andb orb].
  - now destruct ((Amount minFee <=? Amount coin) && negb (Amount minFee =? 0)).
  - now rewrite andb_false_r.
Qed.

(** What a true answer of the comparison means, well formed or not. *)
Lemma IsAnyGTE_true (txFees : Coins) (minFee : Coin) :
  Coins_IsAnyGTE txFees [minFee] = Done true ->
  Amount minFee <> 0
  /\ exists coin, In coin txFees
                  /\ Denom coin = Denom minFee
                  /\ Amount minFee <= Amount coin.
Proof.
  unfold Coins_IsAnyGTE.
  induction txFees as [|coin txFees IH]; cbn [anyGTE]; [discriminate|].
  destruct (reDnmMatch (Denom coin)) eqn:Hd.
  - rewrite (AmountOf_single _ _ Hd). unfold Int_GTE, Int_IsZero.
    destruct (String.eqb_spec (Denom minFee) (Denom coin)) as [E|E].
    + destruct (Z.leb_spec (Amount minFee) (Amount coin)) as [L|L];
        destruct (Z.eqb_spec (Amount minFee) 0) as [Z0|Z0]; cbn [andb negb].
      * intros H. destruct (IH H) as [Hnz _]. contradiction.
      * intros _. split; [exact Z0|]. exists coin. auto with datatypes.
      * intros H. destruct (IH H) as [Hnz _]. contradiction.
      * intros H. destruct (IH H) as [Hnz [c [Hin Hc]]].
        split; [exact Hnz|]. exists c. auto with datatypes.
    + rewrite andb_false_r.
      intros H. destruct (IH H) as [Hnz [c [Hin Hc]]].
      split; [exact Hnz|]. exists c. auto with datatypes.
  - rewrite (AmountOf_malformed _ _ Hd). discriminate.
Qed.

Lemma comparison_covers (txFees : Coins) (minFee : Coin) :
  spec.wellFormed txFees ->
  (Int_IsZero (Amount minFee) = true
   \/ Coins_IsAnyGTE txFees [minFee] = Done true)
  <-> spec.feeCovers txFees minFee.
Proof.
  intros Hwf. unfold spec.feeCovers, Int_IsZero.
  rewrite Z.eqb_eq. split; (intros [Hz|Hex]; [now left|]).
  - right. now apply IsAnyGTE_true in Hex as [_ Hex].
  - destruct Hex as [coin [Hin [Hd Ha]]].
    destruct (Z.eq_dec (Amount minFee) 0) as [Hz|Hz]; [now left|right].
    rewrite (IsAnyGTE_single _ _ Hwf). f_equal.
    apply existsb_exists. exists coin. split; [exact Hin|].
    rewrite Hd, String.eqb_refl. simpl.
    apply andb_true_iff. split; [now apply Z.leb_le|].
    apply negb_true_iff. now apply Z.eqb_neq.
Qed.

(** A true answer of the comparison stays true for a smaller minimum, not
    zero, of the same denomination: the scan stops no later. *)
Lemma IsAnyGTE_lower (txFees : Coins) (minFee minFee' : Coin) :
  Denom minFee' = Denom minFee ->
  Amount minFee' <= Amount minFee ->
  Amount minFee' <> 0 ->
  Coins_IsAnyGTE txFees [minFee] = Done true ->
  Coins_IsAnyGTE txFees [minFee'] = Done true.
Proof.
  intros Hd Hle Hnz. unfold Coins_IsAnyGTE.
  induction txFees as [|coin txFees IH]; cbn [anyGTE]; [discriminate|].
  destruct (reDnmMatch (Denom coin)) eqn:Hc.
  - rewrite !(AmountOf_single _ _ Hc), Hd. unfold Int_GTE, Int_IsZero.
    destruct (String.eqb (Denom minFee) (Denom coin)).
    + destruct (Z.leb_spec (Amount minFee) (Amount coin)) as [L|L];
        destruct (Z.eqb_spec (Amount minFee) 0) as [Z0|Z0];
        destruct (Z.leb_spec (Amount minFee') (Amount coin)) as [L'|L'];
        destruct (Z.eqb_spec (Amount minFee') 0) as [Z0'|Z0'];
        cbn [andb negb]; auto; try contradiction; try lia.
    + rewrite !andb_false_r. exact IH.
  - rewrite !(AmountOf_malformed _ _ Hc). discriminate.
Qed.

(** *** Claims *)

(** C5: with [simulate = true] the decorator hands every transaction to the
    rest of the chain (the outcome Proceed), whatever the transaction's
    fee, gas limit, shape and messages and whatever the registry holds. *)
Theorem simulate_proceeds depth mfd (ctx : Context) tx :
  AnteHandle AccAddressFromBech32 depth mfd ctx tx true
  = Some (Next ctx tx true).
Proof. reflexivity. Qed.

(** C6, as the code has it: a transaction that is not a [FeeTx] is rejected
    with [ErrTxDecode] ("Tx must be a FeeTx") when [simulate = false]; when
    [simulate = true] it is handed to the rest of the chain, the simulation
    test coming first. *)
Theorem non_fee_tx_rejected_unless_simulate depth mfd (ctx : Context) tx :
  asFeeTx tx = None ->
  handle depth mfd ctx tx false
  = Some (Return ctx (Wrap ErrTxDecode "Tx must be a FeeTx"))
  /\ handle depth mfd ctx tx true = Some (Next ctx tx true).
Proof.
  intros Hfee. split; [|reflexivity].
  unfold AnteHandle. now rewrite Hfee.
Qed.

(** C7: with [simulate = false], a fee transaction and a minimum price that
    the registry does not hold or holds as zero, the outcome is Proceed,
    for every gas limit (zero included), every list of messages and every
    call depth: discovery is not run. *)
Theorem no_active_price_proceeds depth mfd (ctx : Context) tx feeTx :
  asFeeTx tx = Some feeTx ->
  (GetMinConsensusFee (rewardsKeeper mfd) ctx = None
   \/ exists gasUnitPrice,
        GetMinConsensusFee (rewardsKeeper mfd) ctx = Some gasUnitPrice
        /\ Dec_i (DecCoin_Amount gasUnitPrice) = 0) ->
  handle depth mfd ctx tx false = Some (Next ctx tx false).
Proof.
  intros Hfee Hprice. unfold AnteHandle. rewrite Hfee.
  destruct Hprice as [->|[p [-> Hz]]]; [reflexivity|].
  unfold DecCoin_IsZero, Dec_IsZero. now rewrite Hz.
Qed.

(** C8: with [simulate = false], a fee transaction, a minimum price found
    and not zero, and a gas limit of zero, the outcome is the rejection
    with [ErrInvalidRequest] ("tx gas limit is not set"), and so is not
    Proceed. *)
Theorem zero_gas_rejected depth mfd (ctx : Context) tx feeTx gasUnitPrice :
  asFeeTx tx = Some feeTx ->
  GetMinConsensusFee (rewardsKeeper mfd) ctx = Some gasUnitPrice ->
  Dec_i (DecCoin_Amount gasUnitPrice) <> 0 ->
  GetGas feeTx = 0%N ->
  handle depth mfd ctx tx false
  = Some (Return ctx (Wrap ErrInvalidRequest "tx gas limit is not set"))
  /\ handle depth mfd ctx tx false <> Some (Next ctx tx false).
Proof.
  intros Hfee Hprice Hnz Hgas.
  assert (E : handle depth mfd ctx tx false
              = Some (Return ctx (Wrap ErrInvalidRequest "tx gas limit is not set"))).
  { unfold AnteHandle. rewrite Hfee, Hprice.
    unfold DecCoin_IsZero, Dec_IsZero at 1.
    apply Z.eqb_neq in Hnz. rewrite Hnz.
    assert (G : Dec_IsZero (pkg.NewDecFromUint64 (GetGas feeTx)) = true)
      by now apply gas_limit_zero.
    now rewrite G. }
  split; [exact E|]. rewrite E. discriminate.
Qed.

(** The decision once discovery has succeeded on every message. *)
Lemma handle_after_discovery depth mfd (ctx : Context) tx feeTx gasUnitPrice :
  asFeeTx tx = Some feeTx ->
  GetMinConsensusFee (rewardsKeeper mfd) ctx = Some gasUnitPrice ->
  Dec_i (DecCoin_Amount gasUnitPrice) <> 0 ->
  GetGas feeTx <> 0%N ->
  Forall (fun m => exists fees, flatFees depth mfd ctx m = Some (fees, None))
         (GetMsgs tx) ->
  let minFee :=
    minFeeExpected gasUnitPrice (pkg.NewDecFromUint64 (GetGas feeTx)) in
  handle depth mfd ctx tx false
  = if Int_IsZero (Amount minFee) then Some (Next ctx tx false)
    else
      match Coins_IsAnyGTE (GetFee feeTx) [minFee] with
      | Panics v => Some (Panic v)
      | Done true => Some (Next ctx tx false)
      | Done false =>
          Some (Return ctx
                  (Wrapf ErrInsufficientFee "tx fee %s is less than min fee: %s"
                     [GetFee feeTx; [minFee]]))
      end.
Proof.
  intros Hfee Hprice Hnz Hgas Hmsgs minFee.
  unfold AnteHandle. rewrite Hfee, Hprice.
  unfold DecCoin_IsZero, Dec_IsZero at 1.
  apply Z.eqb_neq in Hnz. rewrite Hnz.
  destruct (Dec_IsZero (pkg.NewDecFromUint64 (GetGas feeTx))) eqn:G.
  - apply gas_limit_zero in G. contradiction.
  - rewrite (rangeMsgs_all _ _ Hmsgs). reflexivity.
Qed.

(** C4, as the code has it: with [simulate = false], a fee transaction
    whose declared fee has well-formed denominations only, a minimum price
    found and not zero, a gas limit that is not zero and discovery
    succeeding on every message, the outcome is Proceed exactly when the
    expected minimum is zero or some declared fee entry has its
    denomination and at least its amount (an equal amount passes);
    otherwise it is the rejection with [ErrInsufficientFee] that carries
    the declared fee and the minimum. *)
Theorem fee_comparison_decides depth mfd (ctx : Context) tx feeTx gasUnitPrice :
  asFeeTx tx = Some feeTx ->
  spec.wellFormed (GetFee feeTx) ->
  GetMinConsensusFee (rewardsKeeper mfd) ctx = Some gasUnitPrice ->
  Dec_i (DecCoin_Amount gasUnitPrice) <> 0 ->
  GetGas feeTx <> 0%N ->
  Forall (fun m => exists fees, flatFees depth mfd ctx m = Some (fees, None))
         (GetMsgs tx) ->
  let minFee :=
    minFeeExpected gasUnitPrice (pkg.NewDecFromUint64 (GetGas feeTx)) in
  (handle depth mfd ctx tx false = Some (Next ctx tx false)
   <-> spec.feeCovers (GetFee feeTx) minFee)
  /\ (~ spec.feeCovers (GetFee feeTx) minFee ->
      handle depth mfd ctx tx false
      = Some (Return ctx
                (Wrapf ErrInsufficientFee "tx fee %s is less than min fee: %s"
                   [GetFee feeTx; [minFee]]))).
Proof.
  intros Hfee Hwf Hprice Hnz Hgas Hmsgs minFee.
  rewrite (handle_after_discovery _ _ _ _ _ _ Hfee Hprice Hnz Hgas Hmsgs).
  fold minFee. rewrite <- (comparison_covers _ _ Hwf).
  rewrite (IsAnyGTE_single _ _ Hwf).
  destruct (Int_IsZero (Amount minFee)).
  - split; [tauto|]. intros Hn. elim Hn. now left.
  - destruct (existsb _ _).
    + split; [tauto|]. intros Hn. elim Hn. now right.
    + split; [|reflexivity].
      split; [discriminate|intros [H|H]; discriminate].
Qed.

(** C2: with [simulate = false], a fee transaction, a minimum price found
    and not zero and discovery succeeding on every message, the verdict is
    a function of the declared fee, the gas limit and the minimum price
    alone, no flat fee being added to the expected minimum; hence another
    registry state with the same minimum price, whatever its flat fees,
    gives the same verdict. *)
Theorem decision_ignores_flat_fees depth mfd (ctx : Context) tx feeTx
    gasUnitPrice :
  asFeeTx tx = Some feeTx ->
  GetMinConsensusFee (rewardsKeeper mfd) ctx = Some gasUnitPrice ->
  Dec_i (DecCoin_Amount gasUnitPrice) <> 0 ->
  Forall (fun m => exists fees, flatFees depth mfd ctx m = Some (fees, None))
         (GetMsgs tx) ->
  option_map spec.verdict (handle depth mfd ctx tx false)
  = Some (spec.decision (GetFee feeTx) (GetGas feeTx) gasUnitPrice)
  /\ forall depth' mfd' (ctx' : Context),
       GetMinConsensusFee (rewardsKeeper mfd') ctx' = Some gasUnitPrice ->
       Forall (fun m => exists fees,
                   flatFees depth' mfd' ctx' m = Some (fees, None))
              (GetMsgs tx) ->
       option_map spec.verdict (handle depth' mfd' ctx' tx false)
       = option_map spec.verdict (handle depth mfd ctx tx false).
Proof.
  intros Hfee Hprice Hnz Hmsgs.
  assert (D : forall d m (c : Context),
             GetMinConsensusFee (rewardsKeeper m) c = Some gasUnitPrice ->
             Forall (fun x => exists fees, flatFees d m c x = Some (fees, None))
                    (GetMsgs tx) ->
             option_map spec.verdict (handle d m c tx false)
             = Some (spec.decision (GetFee feeTx) (GetGas feeTx) gasUnitPrice)).
  { intros d m c Hp Hm. unfold spec.decision.
    destruct (N.eqb (GetGas feeTx) 0) eqn:G.
    - apply N.eqb_eq in G. apply gas_limit_zero in G.
      unfold AnteHandle. rewrite Hfee, Hp.
      unfold DecCoin_IsZero, Dec_IsZero at 1.
      apply Z.eqb_neq in Hnz. now rewrite Hnz, G.
    - apply N.eqb_neq in G.
      rewrite (handle_after_discovery d m c tx feeTx gasUnitPrice); auto.
      destruct (Int_IsZero _); [reflexivity|].
      now destruct (Coins_IsAnyGTE _ _) as [[|]|v]. }
  split.
  - now apply D.
  - intros depth' mfd' ctx' Hp Hm. rewrite (D depth mfd ctx), (D depth' mfd' ctx'); auto.
Qed.

(** *** Failures inside a delegated message *)

Lemma discovers_at (mfd : @MinFeeDecorator K C) (ctx : Context) m :
  spec.discovers AccAddressFromBech32 mfd ctx m ->
  exists d, forall depth, (d <= depth)%nat ->
    flatFees depth mfd ctx m = Some ([], None).
Proof.
  intros [d [fees Hd]]. exists d. intros depth Hle.
  pose proof (getContractFlatFees_empty _ _ _ _ _ _ Hd). subst fees.
  now apply (getContractFlatFees_mono d).
Qed.

Lemma allDiscover_at (mfd : @MinFeeDecorator K C) (ctx : Context) vs :
  spec.allDiscover AccAddressFromBech32 mfd ctx vs ->
  exists d, forall depth, (d <= depth)%nat ->
    Forall (fun v => exists m, UnpackAny (codec mfd) v = Some m
                               /\ flatFees depth mfd ctx m = Some ([], None))
           vs.
Proof.
  induction 1 as [|v vs [m [Hv Hm]] _ [d IH]].
  - exists O. intros. constructor.
  - apply discovers_at in Hm as [d0 Hm].
    exists (Nat.max d0 d). intros depth Hle. constructor.
    + exists m. split; [exact Hv|]. apply Hm. lia.
    + apply IH. lia.
Qed.

Lemma rangeWrapped_skip (f : Msg -> option (Coins * option error))
    (cdc : C) pre rest :
  Forall (fun v => exists m, UnpackAny cdc v = Some m /\ f m = Some ([], None))
         pre ->
  forall flatfee,
    rangeWrapped f cdc flatfee (pre ++ rest) = rangeWrapped f cdc flatfee rest.
Proof.
  induction 1 as [|v pre [m [Hv Hm]] _ IH]; intros flatfee; simpl; auto.
  rewrite Hv, Hm, addEach_keeps. apply IH.
Qed.

(** A message under which the first failure is an undecodable wrapped
    message: discovery returns the [ErrUnauthorized] error. *)
Lemma undecodable_first_unauthorized (mfd : @MinFeeDecorator K C)
    (ctx : Context) m :
  spec.UndecodableFirst AccAddressFromBech32 mfd ctx m ->
  exists d, forall depth, (d <= depth)%nat ->
    flatFees depth mfd ctx m = Some ([], Some spec.unauthorized).
Proof.
  induction 1 as [msg pre v post Hmsgs Hpre Hv
                 |msg pre v m post Hmsgs Hpre Hv _ [d0 IH]].
  - apply allDiscover_at in Hpre as [d Hpre].
    exists (S d). intros depth Hle.
    destruct depth as [|depth]; [lia|]. simpl.
    rewrite Hmsgs, (rangeWrapped_skip _ _ _ _ (Hpre depth ltac:(lia))).
    simpl. now rewrite Hv.
  - apply allDiscover_at in Hpre as [d Hpre].
    exists (S (Nat.max d d0)). intros depth Hle.
    destruct depth as [|depth]; [lia|]. simpl.
    rewrite Hmsgs, (rangeWrapped_skip _ _ _ _ (Hpre depth ltac:(lia))).
    simpl. rewrite Hv, (IH depth ltac:(lia)). reflexivity.
Qed.

(** C9: with [simulate = false], a fee transaction, a minimum price found
    and not zero and a gas limit that is not zero, when the first failure
    in iteration order is a wrapped message of a [MsgExec] that the codec
    cannot decode (discovery succeeding on everything before it), the
    check ends with the [ErrUnauthorized] rejection at every call depth
    that reaches it: neither Proceed nor [ErrInsufficientFee] comes out. *)
Theorem undecodable_wrapped_message_aborts mfd (ctx : Context) tx feeTx
    gasUnitPrice pre m post :
  asFeeTx tx = Some feeTx ->
  GetMinConsensusFee (rewardsKeeper mfd) ctx = Some gasUnitPrice ->
  Dec_i (DecCoin_Amount gasUnitPrice) <> 0 ->
  GetGas feeTx <> 0%N ->
  GetMsgs tx = pre ++ m :: post ->
  Forall (spec.discovers AccAddressFromBech32 mfd ctx) pre ->
  spec.UndecodableFirst AccAddressFromBech32 mfd ctx m ->
  exists d, forall depth, (d <= depth)%nat ->
    handle depth mfd ctx tx false = Some (Return ctx spec.unauthorized).
Proof.
  intros Hfee Hprice Hnz Hgas Hmsgs Hpre Hm.
  apply undecodable_first_unauthorized in Hm as [d0 Hm].
  assert (P : exists d, forall depth, (d <= depth)%nat ->
                Forall (fun x => exists fees,
                            flatFees depth mfd ctx x = Some (fees, None)) pre).
  { clear Hmsgs. induction Hpre as [|x pre Hx _ [d IH]].
    - exists O. intros. constructor.
    - apply discovers_at in Hx as [dx Hx].
      exists (Nat.max dx d). intros depth Hle. constructor.
      + exists []. apply Hx. lia.
      + apply IH. lia. }
  destruct P as [d P]. exists (Nat.max d d0). intros depth Hle.
  unfold AnteHandle. rewrite Hfee, Hprice.
  unfold DecCoin_IsZero, Dec_IsZero at 1.
  apply Z.eqb_neq in Hnz. rewrite Hnz.
  destruct (Dec_IsZero (pkg.NewDecFromUint64 (GetGas feeTx))) eqn:G.
  - apply gas_limit_zero in G. contradiction.
  - rewrite Hmsgs.
    rewrite (rangeMsgs_first_error _ pre m post [] spec.unauthorized);
      [reflexivity| apply P; lia | apply Hm; lia].
Qed.

(** *** Termination on finite message trees *)

Lemma rangeWrapped_returns (f : Msg -> option (Coins * option error))
    (cdc : C) vs :
  (forall v m, In v vs -> UnpackAny cdc v = Some m -> exists r, f m = Some r) ->
  forall flatfee, exists s, rangeWrapped f cdc flatfee vs = Some s.
Proof.
  induction vs as [|v vs IH]; intros Hsub flatfee; simpl; eauto.
  destruct (UnpackAny cdc v) as [m|] eqn:Hv; eauto.
  destruct (Hsub v m (or_introl eq_refl) Hv) as [[fees [err|]] Hm];
    rewrite Hm; eauto.
  apply IH. intros v' m' Hin. apply Hsub. now right.
Qed.

Lemma common_depth (mfd : @MinFeeDecorator K C) (ctx : Context) vs :
  (forall v m, In v vs -> UnpackAny (codec mfd) v = Some m ->
     exists d r, forall depth, (d <= depth)%nat ->
       flatFees depth mfd ctx m = Some r) ->
  exists d, forall v m, In v vs -> UnpackAny (codec mfd) v = Some m ->
    exists r, flatFees d mfd ctx m = Some r.
Proof.
  induction vs as [|v vs IH]; intros Hsub.
  - exists O. intros v m [].
  - destruct IH as [d IH].
    { intros v' m' Hin. apply Hsub. now right. }
    destruct (UnpackAny (codec mfd) v) as [m|] eqn:Hv.
    + destruct (Hsub v m (or_introl eq_refl) Hv) as [d0 [r Hr]].
      exists (Nat.max d0 d). intros v' m' [<-|Hin] Hv'.
      * rewrite Hv in Hv'. inversion Hv'; subst m'.
        exists r. apply Hr. lia.
      * destruct (IH v' m' Hin Hv') as [r' Hr'].
        exists r'. apply (getContractFlatFees_mono d); [lia|exact Hr'].
    + exists d. intros v' m' [<-|Hin] Hv'.
      * rewrite Hv in Hv'. discriminate.
      * exact (IH v' m' Hin Hv').
Qed.

(** On a finite tree, every call depth from some bound on gives the same
    result. *)
Lemma finite_tree_returns (mfd : @MinFeeDecorator K C) (ctx : Context) m :
  spec.FiniteTree mfd m ->
  exists d r, forall depth, (d <= depth)%nat ->
    flatFees depth mfd ctx m = Some r.
Proof.
  intros Hfin.
  assert (E : exists d r, flatFees d mfd ctx m = Some r).
  { induction Hfin as [msg| |msg _ IH].
    - exists 1%nat. simpl.
      destruct (AccAddressFromBech32 _); [destruct (GetFlatFee _ _ _)|]; eauto.
    - exists 1%nat. simpl. eauto.
    - assert (IH' : forall v m, In v (authz.Msgs msg) ->
                 UnpackAny (codec mfd) v = Some m ->
                 exists d r, forall depth, (d <= depth)%nat ->
                   flatFees depth mfd ctx m = Some r).
      { intros v m Hin Hv. destruct (IH v m Hin Hv) as [d [r Hr]].
        exists d, r. intros depth Hle.
        now apply (getContractFlatFees_mono d). }
      apply common_depth in IH' as [d Hd].
      exists (S d). simpl.
      destruct (rangeWrapped_returns (flatFees d mfd ctx) (codec mfd)
                  (authz.Msgs msg) Hd []) as [[total|err] Hs];
        rewrite Hs; eauto. }
  destruct E as [d [r Hr]]. exists d, r. intros depth Hle.
  now apply (getContractFlatFees_mono d).
Qed.

End Properties.

(** ** Rounding of the expected minimum *)

Lemma parity_bit (q : Z) : Z.testbit q 0 = negb (q mod 2 =? 0).
Proof.
  rewrite Z.bit0_odd, <- Z.negb_even. f_equal. now rewrite Zeven_mod.
Qed.

Ltac split_tests :=
  repeat match goal with
         | |- context [?a ?= ?b] => destruct (Z.compare_spec a b)
         | |- context [?a =? ?b] => destruct (Z.eqb_spec a b)
         | |- context [?a <? ?b] => destruct (Z.ltb_spec a b)
         end.

Lemma chopNonNeg_half_even x :
  0 <= x -> chopNonNeg x = spec.roundHalfToEven x.
Proof.
  intros Hx. unfold chopNonNeg, spec.roundHalfToEven.
  rewrite Z.quot_div_nonneg, Z.rem_mod_nonneg
    by (try exact Hx; reflexivity).
  rewrite Z.bit0_odd, <- Z.negb_even.
  pose proof (Z.mod_pos_bound x precisionReuse eq_refl) as Hr.
  revert Hr. generalize (x mod precisionReuse) (x / precisionReuse).
  intros r q Hr.
  change fivePrecision with 500000000000000000.
  change precisionReuse with 1000000000000000000 in *.
  split_tests; try lia; destruct (Z.even q); reflexivity.
Qed.

(** Rounding to nearest with ties to even commutes with negation. *)
Lemma roundHalfToEven_opp x :
  spec.roundHalfToEven (- x) = - spec.roundHalfToEven x.
Proof.
  unfold spec.roundHalfToEven.
  change precisionReuse with 1000000000000000000.
  rewrite !Zeven_mod.
  split_tests; Z.to_euclidean_division_equations; lia.
Qed.

(** The library's chopping, with its truncated division and its sign
    flip, is rounding to nearest with ties to even. *)
Lemma chop_half_even x : chopPrecisionAndRound x = spec.roundHalfToEven x.
Proof.
  unfold chopPrecisionAndRound. destruct (Z.ltb_spec x 0) as [Hx|Hx].
  - rewrite chopNonNeg_half_even by lia.
    rewrite roundHalfToEven_opp. lia.
  - now apply chopNonNeg_half_even.
Qed.

Lemma chop_exact k : chopPrecisionAndRound (k * precisionReuse) = k.
Proof.
  rewrite chop_half_even. unfold spec.roundHalfToEven.
  change precisionReuse with 1000000000000000000.
  rewrite Z.div_mul, Z.mod_mul by lia. reflexivity.
Qed.

(** The multiplication by the gas limit is exact, so the only rounding is
    that of [RoundInt]. *)
Lemma min_fee_amount (gasUnitPrice : DecCoin) (gas : N) :
  Amount (minFeeExpected gasUnitPrice (pkg.NewDecFromUint64 gas))
  = spec.roundHalfToEven (spec.scaledProduct gasUnitPrice gas).
Proof.
  unfold minFeeExpected, Dec_RoundInt, Dec_Mul, pkg.NewDecFromUint64,
    NewDecFromInt, NewIntFromUint64, spec.scaledProduct. simpl.
  rewrite Z.mul_assoc, chop_exact. apply chop_half_even.
Qed.

Lemma half_even_nearest x :
  let r := spec.roundHalfToEven x in
  2 * Z.abs (x - r * precisionReuse) <= precisionReuse
  /\ (2 * Z.abs (x - r * precisionReuse) = precisionReuse -> Z.even r = true)
  /\ (2 * Z.abs (x - r * precisionReuse) <> precisionReuse ->
      r = spec.roundHalfAwayFromZero x).
Proof.
  unfold spec.roundHalfToEven, spec.roundHalfAwayFromZero.
  change precisionReuse with 1000000000000000000.
  rewrite !Zeven_mod.
  destruct (Z.lt_trichotomy x 0) as [Hx|[Hx|Hx]];
    [rewrite (Z.sgn_neg x Hx)
    |subst x; change (Z.sgn 0) with 0
    |rewrite (Z.sgn_pos x Hx)];
    split_tests; cbv beta iota zeta; repeat split; intros;
    try rewrite Zeven_mod;
    try match goal with
        | |- (_ =? _) = true => apply Z.eqb_eq
        | |- false = true => exfalso
        end;
    Z.to_euclidean_division_equations; lia.
Qed.

(** X13: the expected minimum has the price's denomination, and its
    amount is the product of the price and the gas limit rounded to the
    nearest integer, a tie going to the even neighbour; off a tie this is
    the rounding away from zero, and price 0.0025 with gas 200000 gives
    500, price 0.000015 with gas 333333 gives 5. *)
Theorem min_fee_rounds_half_to_even :
  (forall (gasUnitPrice : DecCoin) (gas : N),
     let minFee := minFeeExpected gasUnitPrice (pkg.NewDecFromUint64 gas) in
     let x := spec.scaledProduct gasUnitPrice gas in
     let off := 2 * Z.abs (x - Amount minFee * precisionReuse) in
     Denom minFee = DecCoin_Denom gasUnitPrice
     /\ off <= precisionReuse
     /\ (off = precisionReuse -> Z.even (Amount minFee) = true)
     /\ (off <> precisionReuse ->
         Amount minFee = spec.roundHalfAwayFromZero x))
  /\ minFeeExpected (fixtures.price "uarch" 2500000000000000)
                    (pkg.NewDecFromUint64 200000)
     = fixtures.uarch 500
  /\ minFeeExpected (fixtures.price "uarch" 15000000000000)
                    (pkg.NewDecFromUint64 333333)
     = fixtures.uarch 5.
Proof.
  split; [|split; vm_compute; reflexivity].
  intros gasUnitPrice gas minFee x off. split; [reflexivity|].
  subst off minFee. rewrite min_fee_amount. fold x.
  apply half_even_nearest.
Qed.

(** ** Evaluations *)

Import fixtures.

(** C3, on the code: price 0.0025 with gas 200 has the product 0.5, a
    tie; the code gives the minimum 0, below the product, where the
    rounding away from zero gives 1. *)
Lemma min_fee_tie_not_away_from_zero :
  let gasUnitPrice := price "uarch" 2500000000000000 in
  Amount (minFeeExpected gasUnitPrice (pkg.NewDecFromUint64 200)) = 0
  /\ spec.roundHalfAwayFromZero (spec.scaledProduct gasUnitPrice 200) = 1
  /\ Amount (minFeeExpected gasUnitPrice (pkg.NewDecFromUint64 200))
     <> spec.roundHalfAwayFromZero (spec.scaledProduct gasUnitPrice 200)
  /\ Amount (minFeeExpected gasUnitPrice (pkg.NewDecFromUint64 200))
     * precisionReuse
     < spec.scaledProduct gasUnitPrice 200.
Proof. vm_compute. repeat split. discriminate. Qed.

Lemma min_fee_rounds_half_to_even_witness :
  Z.even (Amount (minFeeExpected (price "uarch" 2500000000000000)
                    (pkg.NewDecFromUint64 1000))) = true
  /\ Amount (minFeeExpected (price "uarch" 2500000000000000)
               (pkg.NewDecFromUint64 200000))
     = spec.roundHalfAwayFromZero
         (spec.scaledProduct (price "uarch" 2500000000000000) 200000).
Proof.
  split.
  - apply (proj1 min_fee_rounds_half_to_even
             (price "uarch" 2500000000000000) 1000%N).
    vm_compute. reflexivity.
  - apply (proj1 min_fee_rounds_half_to_even
             (price "uarch" 2500000000000000) 200000%N).
    vm_compute. lia.
Defined.

(** *** Discovery on the fixtures *)

Lemma chain_decodes n :
  UnpackAny chain (chainAny n) = Some (delegated n).
Proof. destruct n; reflexivity. Qed.

Lemma finite_delegated (k : FeeRegistry) n :
  spec.FiniteTree (decorator k chain) (delegated n).
Proof.
  induction n as [|n IH]; simpl; constructor.
  intros v m [<-|[]] Hv. simpl in Hv.
  change (UnpackAny chain (chainAny n) = Some m) in Hv.
  rewrite chain_decodes in Hv. inversion Hv; subst m. exact IH.
Qed.

(** One call on a [MsgExec] with a single wrapped message. *)
Lemma exec_single (k : FeeRegistry) depth v m :
  UnpackAny chain v = Some m ->
  getContractFlatFees parseAddress (S depth) (decorator k chain) tt
    (MsgExec (authz.mkMsgExec "" [v]))
  = match getContractFlatFees parseAddress depth (decorator k chain) tt m with
    | None => None
    | Some (_, Some err) => Some ([], Some err)
    | Some (_, None) => Some ([], None)
    end.
Proof.
  intros Hv. simpl in *. rewrite Hv.
  destruct (getContractFlatFees _ _ _ _ m) as [[fees [err|]]|];
    rewrite ?addEach_keeps; reflexivity.
Qed.

(** [n] wrappers take exactly [n + 1] nested calls. *)
Lemma delegated_depth (k : FeeRegistry) n :
  getContractFlatFees parseAddress n (decorator k chain) tt (delegated n) = None
  /\ forall depth, (n < depth)%nat ->
       getContractFlatFees parseAddress depth (decorator k chain) tt
         (delegated n) = Some ([], None).
Proof.
  induction n as [|n [IHnone IHsome]].
  - split; [reflexivity|]. intros [|depth] Hlt; [lia|reflexivity].
  - change (delegated (S n)) with (MsgExec (authz.mkMsgExec "" [chainAny n])).
    split.
    + rewrite (exec_single k n _ _ (chain_decodes n)), IHnone. reflexivity.
    + intros [|depth] Hlt; [lia|].
      rewrite (exec_single k depth _ _ (chain_decodes n)), (IHsome depth) by lia.
      reflexivity.
Qed.

(** C10: on a message whose tree of wrapped messages is finite, discovery
    returns: from some call depth on, every depth gives one and the same
    result (coins and error).  No depth is refused: with the [chain] codec,
    [n] wrappers one inside the other take [n + 1] nested calls and
    discovery returns without error, for every [n]. *)
Theorem discovery_terminates_on_finite_trees :
  (forall (Context K C : Type) (RK : RewardsFeeReaderExpected Context K)
          (CD : BinaryCodec C)
          (AccAddressFromBech32 : string -> AccAddress + error)
          (mfd : @MinFeeDecorator K C) (ctx : Context) (m : Msg),
      spec.FiniteTree mfd m ->
      exists d r, forall depth, (d <= depth)%nat ->
        getContractFlatFees AccAddressFromBech32 depth mfd ctx m = Some r)
  /\ (forall n,
        spec.FiniteTree (decorator registry chain) (delegated n)
        /\ getContractFlatFees parseAddress n (decorator registry chain) tt
             (delegated n) = None
        /\ getContractFlatFees parseAddress (S n) (decorator registry chain) tt
             (delegated n) = Some ([], None)).
Proof.
  split.
  - intros. now apply finite_tree_returns.
  - intros n. split; [apply finite_delegated|].
    destruct (delegated_depth registry n) as [Hnone Hsome].
    split; [exact Hnone|]. apply Hsome. lia.
Qed.

Lemma discovery_terminates_on_finite_trees_witness :
  exists d r, forall depth, (d <= depth)%nat ->
    getContractFlatFees parseAddress depth (decorator registry chain) tt
      (delegated 3) = Some r.
Proof.
  apply (proj1 discovery_terminates_on_finite_trees).
  apply finite_delegated.
Defined.

(** C1, on the code: contracts [c1] and [c2] have the flat fees 100 and
    50 uarch, whose sum is 150 uarch; discovery on the execution of [c1],
    and on a [MsgExec] wrapping the executions of [c1] and [c2], returns no
    error and an empty coin set, each [flatfee.Add(fee)] being dropped. *)
Theorem registered_flat_fees_dropped :
  GetFlatFee registry tt (bytesOf "c1") = Some (uarch 100)
  /\ GetFlatFee registry tt (bytesOf "c2") = Some (uarch 50)
  /\ Coins_Add (Coins_Add [] [uarch 100]) [uarch 50] = [uarch 150]
  /\ getContractFlatFees parseAddress 1 checker tt (execute "c1")
     = Some ([], None)
  /\ getContractFlatFees parseAddress 2 checker tt
       (exec [wasmAny "c1"; wasmAny "c2"])
     = Some ([], None).
Proof. vm_compute. repeat split. Qed.

(** C6, the claim as stated fails: with [simulate = true] a transaction
    that is not a [FeeTx] is handed to the rest of the chain. *)
Lemma simulate_non_fee_tx_proceeds :
  asFeeTx (plainTx [execute "c1"]) = None
  /\ AnteHandle parseAddress 1 checker tt (plainTx [execute "c1"]) true
     = Some (Next tt (plainTx [execute "c1"]) true)
  /\ AnteHandle parseAddress 1 checker tt (plainTx [execute "c1"]) true
     <> Some (Return tt (Wrap ErrTxDecode "Tx must be a FeeTx")).
Proof. repeat split. discriminate. Qed.

Lemma non_fee_tx_rejected_unless_simulate_witness :
  AnteHandle parseAddress 1 checker tt (plainTx [execute "c1"]) false
  = Some (Return tt (Wrap ErrTxDecode "Tx must be a FeeTx"))
  /\ AnteHandle parseAddress 1 checker tt (plainTx [execute "c1"]) true
     = Some (Next tt (plainTx [execute "c1"]) true).
Proof.
  apply (non_fee_tx_rejected_unless_simulate parseAddress 1%nat checker tt).
  reflexivity.
Defined.

(** No price in the registry, a gas limit of zero, a contract address that
    does not parse and a wrapped message that does not decode, at call
    depth zero. *)
Lemma no_active_price_proceeds_witness :
  let tx := feeTx 0 [] [execute ""; exec [opaqueAny]] in
  AnteHandle parseAddress 0 (decorator noPrice wasmOnly) tt tx false
  = Some (Next tt tx false).
Proof.
  intros tx.
  apply (no_active_price_proceeds parseAddress 0%nat
           (decorator noPrice wasmOnly) tt tx (mkFeeTx 0 [])).
  - reflexivity.
  - left. reflexivity.
Defined.

Lemma zero_gas_rejected_witness :
  let tx := feeTx 0 [uarch 500] [execute "c1"] in
  AnteHandle parseAddress 1 checker tt tx false
  = Some (Return tt (Wrap ErrInvalidRequest "tx gas limit is not set"))
  /\ AnteHandle parseAddress 1 checker tt tx false <> Some (Next tt tx false).
Proof.
  intros tx.
  apply (zero_gas_rejected parseAddress 1%nat checker tt tx
           (mkFeeTx 0 [uarch 500]) (price "uarch" 2500000000000000)).
  - reflexivity.
  - reflexivity.
  - simpl. lia.
  - reflexivity.
Defined.

(** Discovery succeeds on each message of a concrete list. *)
Ltac discovery_succeeds :=
  repeat (apply Forall_cons; [exists []; vm_compute; reflexivity|]);
  apply Forall_nil.

(** C4, the claim as stated fails: against the minimum of 500 uarch, a
    declared fee of 1000 ab does not cover it and a declared fee of 1 ab
    and 500 uarch does, yet the outcome is neither [ErrInsufficientFee]
    nor Proceed: the comparison panics on the denomination [ab], which is
    not well formed. *)
Lemma malformed_fee_denomination_panics :
  let minFee := minFeeExpected (price "uarch" 2500000000000000)
                  (pkg.NewDecFromUint64 200000) in
  let short := [mkCoin "ab" 1000] in
  let enough := [mkCoin "ab" 1; uarch 500] in
  (~ spec.feeCovers short minFee
   /\ AnteHandle parseAddress 1 checker tt
        (feeTx 200000 short [execute "c1"]) false
      = Some (Panic (Plain "invalid denom: ab")))
  /\ (spec.feeCovers enough minFee
      /\ AnteHandle parseAddress 1 checker tt
           (feeTx 200000 enough [execute "c1"]) false
         = Some (Panic (Plain "invalid denom: ab"))).
Proof.
  intros minFee short enough. split; split.
  - intros [Hz|[coin [[<-|[]] [Hd _]]]]; vm_compute in *; discriminate.
  - vm_compute. reflexivity.
  - right. exists (uarch 500). split; [right; left; reflexivity|].
    split; [reflexivity|]. vm_compute. discriminate.
  - vm_compute. reflexivity.
Qed.

(** Price 0.0025 uarch and gas 200000: the minimum is 500 uarch, and a
    declared fee of 500 uarch passes. *)
Lemma fee_comparison_decides_witness :
  let tx := feeTx 200000 [uarch 500]
              [execute "c1"; exec [wasmAny "c1"; wasmAny "c2"]] in
  let minFee := minFeeExpected (price "uarch" 2500000000000000)
                  (pkg.NewDecFromUint64 200000) in
  (AnteHandle parseAddress 2 checker tt tx false = Some (Next tt tx false)
   <-> spec.feeCovers [uarch 500] minFee)
  /\ (~ spec.feeCovers [uarch 500] minFee ->
      AnteHandle parseAddress 2 checker tt tx false
      = Some (Return tt
                (Wrapf ErrInsufficientFee "tx fee %s is less than min fee: %s"
                   [[uarch 500]; [minFee]]))).
Proof.
  intros tx minFee.
  apply (fee_comparison_decides parseAddress 2%nat checker tt tx
           (mkFeeTx 200000 [uarch 500]) (price "uarch" 2500000000000000)).
  - reflexivity.
  - repeat constructor.
  - reflexivity.
  - simpl. lia.
  - simpl. lia.
  - discovery_succeeds.
Defined.

(** The registries [registry] and [otherFlatFees] differ in their flat
    fees only; a declared fee of 499 uarch is below the minimum of 500. *)
Lemma decision_ignores_flat_fees_witness :
  let tx := feeTx 200000 [uarch 499]
              [execute "c1"; exec [wasmAny "c1"; wasmAny "c2"]] in
  option_map spec.verdict (AnteHandle parseAddress 2 checker tt tx false)
  = Some (spec.decision [uarch 499] 200000 (price "uarch" 2500000000000000))
  /\ option_map spec.verdict
       (AnteHandle parseAddress 2 (decorator otherFlatFees wasmOnly) tt tx false)
     = option_map spec.verdict (AnteHandle parseAddress 2 checker tt tx false).
Proof.
  intros tx.
  destruct (decision_ignores_flat_fees parseAddress 2%nat checker tt tx
              (mkFeeTx 200000 [uarch 499]) (price "uarch" 2500000000000000))
    as [Hdecision Hsame].
  - reflexivity.
  - reflexivity.
  - simpl. lia.
  - discovery_succeeds.
  - split; [exact Hdecision|].
    apply (Hsame 2%nat (decorator otherFlatFees wasmOnly) tt).
    + reflexivity.
    + discovery_succeeds.
Defined.

(** A [MsgExec] whose second wrapped message does not decode, after a
    message on which discovery succeeds. *)
Lemma undecodable_wrapped_message_aborts_witness :
  let tx := feeTx 200000 [uarch 500]
              [execute "c1"; exec [wasmAny "c1"; opaqueAny; wasmAny ""]] in
  exists d, forall depth, (d <= depth)%nat ->
    AnteHandle parseAddress depth checker tt tx false
    = Some (Return tt spec.unauthorized).
Proof.
  intros tx.
  apply (undecodable_wrapped_message_aborts parseAddress checker tt tx
           (mkFeeTx 200000 [uarch 500]) (price "uarch" 2500000000000000)
           [execute "c1"] (exec [wasmAny "c1"; opaqueAny; wasmAny ""]) []).
  - reflexivity.
  - reflexivity.
  - simpl. lia.
  - simpl. lia.
  - reflexivity.
  - repeat constructor. exists 1%nat, []. reflexivity.
  - apply (spec.UndecodableHere parseAddress checker tt _
             [wasmAny "c1"] opaqueAny [wasmAny ""]).
    + reflexivity.
    + repeat constructor. eexists. split; [reflexivity|].
      exists 1%nat, []. reflexivity.
    + reflexivity.
Defined.

(** ** Further properties of discovery and of the decision *)

Section Coverage.

Context {Context K C : Type}.
Context `{RK : RewardsFeeReaderExpected Context K} `{CD : BinaryCodec C}.
Variable AccAddressFromBech32 : string -> AccAddress + error.

Local Abbreviation flatFees := (getContractFlatFees AccAddressFromBech32).
Local Abbreviation handle := (AnteHandle AccAddressFromBech32).

(** *** The errors of discovery *)

Lemma rangeWrapped_error (f : Msg -> option (Coins * option error))
    (cdc : C) vs flatfee err :
  rangeWrapped f cdc flatfee vs = Some (inr err) ->
  err = spec.unauthorized \/ exists m fees, f m = Some (fees, Some err).
Proof.
  revert flatfee. induction vs as [|v vs IH]; intros flatfee; simpl.
  - discriminate.
  - destruct (UnpackAny cdc v) as [m|].
    + destruct (f m) as [[fees [e|]]|] eqn:F; try discriminate.
      * intros E. inversion E; subst e. right. now exists m, fees.
      * apply IH.
    + intros E. inversion E. now left.
Qed.

Lemma rangeMsgs_error (f : Msg -> option (Coins * option error))
    msgs flatfee err :
  rangeMsgs f flatfee msgs = Some (inr err) ->
  exists m fees, In m msgs /\ f m = Some (fees, Some err).
Proof.
  revert flatfee. induction msgs as [|m msgs IH]; intros flatfee; simpl.
  - discriminate.
  - destruct (f m) as [[fees [e|]]|] eqn:F; try discriminate.
    + intros E. inversion E; subst e. exists m, fees. auto.
    + intros E. destruct (IH _ E) as [m' [fees' [Hin Hm']]].
      exists m', fees'. auto.
Qed.

Lemma discovery_error_cases depth mfd (ctx : Context) m fees err :
  flatFees depth mfd ctx m = Some (fees, Some err) ->
  err = spec.unauthorized
  \/ exists contract, AccAddressFromBech32 contract = inr err.
Proof.
  revert m fees err.
  induction depth as [|depth IH]; intros m fees err; simpl; [discriminate|].
  destruct m as [msg|msg|].
  - destruct (AccAddressFromBech32 (wasmTypes.Contract msg)) as [ca|e] eqn:B.
    + destruct (GetFlatFee _ _ _); discriminate.
    + intros E. inversion E; subst e. right. now exists (wasmTypes.Contract msg).
  - destruct (rangeWrapped _ _ _ _) as [[total|e]|] eqn:R; try discriminate.
    + apply rangeWrapped_keeps in R. subst total. discriminate.
    + intros E. inversion E; subst e.
      apply rangeWrapped_error in R as [->|[m [fees' Hm]]]; [now left|].
      now apply (IH m fees').
  - discriminate.
Qed.

(** X1: whatever [getContractFlatFees] returns with an error, the coins are
    empty and the error is the [ErrUnauthorized] one of an undecodable
    wrapped message or the very error the address parser gave for some
    contract address; the validation of the accumulated coins never
    fails. *)
Theorem discovery_fails_by_decoding_or_address depth mfd (ctx : Context) m
    fees err :
  getContractFlatFees AccAddressFromBech32 depth mfd ctx m
  = Some (fees, Some err) ->
  fees = []
  /\ (err = spec.unauthorized
      \/ exists contract, AccAddressFromBech32 contract = inr err).
Proof.
  intros E. split.
  - now apply getContractFlatFees_empty in E.
  - now apply discovery_error_cases in E.
Qed.

Lemma IsAnyGTE_panics (txFees : Coins) (minFee : Coin) v :
  Coins_IsAnyGTE txFees [minFee] = Panics v ->
  exists coin, In coin txFees
               /\ reDnmMatch (Denom coin) = false
               /\ v = Plain ("invalid denom: " ++ Denom coin)%string.
Proof.
  unfold Coins_IsAnyGTE.
  induction txFees as [|coin txFees IH]; cbn [anyGTE]; [discriminate|].
  destruct (reDnmMatch (Denom coin)) eqn:Hd.
  - rewrite (AmountOf_single _ _ Hd).
    destruct (_ && _); [discriminate|].
    intros H. destruct (IH H) as [c [Hin Hc]]. exists c. auto with datatypes.
  - rewrite (AmountOf_malformed _ _ Hd). intros H. inversion H.
    exists coin. auto with datatypes.
Qed.

(** X2: whenever [AnteHandle] returns, it either calls the rest of the
    chain with the context, transaction and flag it was given, or returns
    the context it was given with one of five errors: [ErrTxDecode],
    [ErrInvalidRequest], the [ErrUnauthorized] of discovery, an error of
    the address parser, or [ErrInsufficientFee] carrying the declared fee
    and the expected minimum.  When it does not return, it panics with the
    library's error for a declared fee entry whose denomination is not
    well formed. *)
Theorem outcome_kinds depth mfd (ctx : Context) tx simulate o :
  AnteHandle AccAddressFromBech32 depth mfd ctx tx simulate = Some o ->
  o = Next ctx tx simulate
  \/ (exists err,
        o = Return ctx err
        /\ (err = Wrap ErrTxDecode "Tx must be a FeeTx"
            \/ err = Wrap ErrInvalidRequest "tx gas limit is not set"
            \/ err = spec.unauthorized
            \/ (exists contract, AccAddressFromBech32 contract = inr err)
            \/ exists feeTx gasUnitPrice,
                 asFeeTx tx = Some feeTx
                 /\ GetMinConsensusFee (rewardsKeeper mfd) ctx
                    = Some gasUnitPrice
                 /\ err = Wrapf ErrInsufficientFee
                            "tx fee %s is less than min fee: %s"
                            [GetFee feeTx;
                             [minFeeExpected gasUnitPrice
                                (pkg.NewDecFromUint64 (GetGas feeTx))]]))
  \/ exists feeTx coin,
       asFeeTx tx = Some feeTx
       /\ In coin (GetFee feeTx)
       /\ reDnmMatch (Denom coin) = false
       /\ o = Panic (Plain ("invalid denom: " ++ Denom coin)%string).
Proof.
  unfold AnteHandle. destruct simulate.
  { intros E; inversion E; now left. }
  destruct (asFeeTx tx) as [feeTx|].
  2:{ intros E; inversion E. right; left.
      eexists. split; [reflexivity|]. now left. }
  destruct (GetMinConsensusFee _ _) as [p|] eqn:P.
  2:{ intros E; inversion E; now left. }
  destruct (DecCoin_IsZero p).
  { intros E; inversion E; now left. }
  destruct (Dec_IsZero _).
  { intros E; inversion E. right; left. eexists. split; [reflexivity|].
    right. now left. }
  destruct (rangeMsgs _ _ _) as [[total|err]|] eqn:R; [| |discriminate].
  - destruct (Int_IsZero _); [intros E; inversion E; now left|].
    destruct (Coins_IsAnyGTE _ _) as [[|]|v] eqn:G;
      intros E; inversion E; [now left| |].
    + right; left. eexists. split; [reflexivity|].
      do 4 right. now exists feeTx, p.
    + right; right. apply IsAnyGTE_panics in G as [coin [Hin [Hd ->]]].
      now exists feeTx, coin.
  - intros E; inversion E. right; left. exists err. split; [reflexivity|].
    apply rangeMsgs_error in R as [m [fees [_ Hm]]].
    apply discovery_error_cases in Hm as [->|Hc]; auto.
Qed.

(** X3: with [simulate = false], a fee transaction, a minimum price found
    and not zero and a gas limit that is not zero, the first message on
    which discovery fails ends the check with exactly the error of
    discovery, whatever the declared fee and whatever messages follow. *)
Theorem first_discovery_error_aborts depth mfd (ctx : Context) tx feeTx
    gasUnitPrice pre m post fees err :
  asFeeTx tx = Some feeTx ->
  GetMinConsensusFee (rewardsKeeper mfd) ctx = Some gasUnitPrice ->
  Dec_i (DecCoin_Amount gasUnitPrice) <> 0 ->
  GetGas feeTx <> 0%N ->
  GetMsgs tx = pre ++ m :: post ->
  Forall (fun x => exists fees,
              getContractFlatFees AccAddressFromBech32 depth mfd ctx x
              = Some (fees, None)) pre ->
  getContractFlatFees AccAddressFromBech32 depth mfd ctx m
  = Some (fees, Some err) ->
  AnteHandle AccAddressFromBech32 depth mfd ctx tx false
  = Some (Return ctx err).
Proof.
  intros Hfee Hprice Hnz Hgas Hmsgs Hpre Hm.
  unfold AnteHandle. rewrite Hfee, Hprice.
  unfold DecCoin_IsZero, Dec_IsZero at 1.
  apply Z.eqb_neq in Hnz. rewrite Hnz.
  destruct (Dec_IsZero (pkg.NewDecFromUint64 (GetGas feeTx))) eqn:G.
  - apply gas_limit_zero in G. contradiction.
  - rewrite Hmsgs.
    now rewrite (rangeMsgs_first_error _ pre m post fees err Hpre Hm).
Qed.

(** X4: inside a [MsgExec], a wrapped execution whose contract address does
    not parse, met after wrapped messages on which discovery succeeds,
    makes discovery return the parser's own error, not wrapped and not
    replaced by [ErrUnauthorized], at every call depth that reaches it. *)
Theorem wrapped_address_error_unchanged mfd (ctx : Context) msg pre v post
    execute err :
  authz.Msgs msg = pre ++ v :: post ->
  spec.allDiscover AccAddressFromBech32 mfd ctx pre ->
  UnpackAny (codec mfd) v = Some (MsgExecuteContract execute) ->
  AccAddressFromBech32 (wasmTypes.Contract execute) = inr err ->
  exists d, forall depth, (d <= depth)%nat ->
    getContractFlatFees AccAddressFromBech32 depth mfd ctx (MsgExec msg)
    = Some ([], Some err).
Proof.
  intros Hmsgs Hpre Hv Hparse.
  apply allDiscover_at in Hpre as [d Hpre].
  exists (S (S d)). intros depth Hle.
  destruct depth as [|[|depth]]; try lia.
  assert (Hd : (d <= S depth)%nat) by lia.
  change (flatFees (S (S depth)) mfd ctx (MsgExec msg))
    with (match rangeWrapped (flatFees (S depth) mfd ctx)
                  (codec mfd) [] (authz.Msgs msg) with
          | None => None
          | Some (inr err) => Some ([], Some err)
          | Some (inl flatfee) => Some (flatfee, Coins_Validate flatfee)
          end).
  rewrite Hmsgs, (rangeWrapped_skip _ _ _ _ (Hpre (S depth) Hd)).
  simpl. rewrite Hv, Hparse. reflexivity.
Qed.

(** *** The keeper's flat fees do not reach the result *)

Lemma rangeWrapped_ext (f g : Msg -> option (Coins * option error))
    (cdc : C) vs :
  (forall m, f m = g m) ->
  forall flatfee, rangeWrapped f cdc flatfee vs = rangeWrapped g cdc flatfee vs.
Proof.
  intros Hfg. induction vs as [|v vs IH]; intros flatfee; simpl; auto.
  destruct (UnpackAny cdc v) as [m|]; auto.
  rewrite Hfg. destruct (g m) as [[fees [e|]]|]; auto.
Qed.

Lemma rangeMsgs_ext (f g : Msg -> option (Coins * option error)) msgs :
  (forall m, f m = g m) ->
  forall flatfee, rangeMsgs f flatfee msgs = rangeMsgs g flatfee msgs.
Proof.
  intros Hfg. induction msgs as [|m msgs IH]; intros flatfee; simpl; auto.
  rewrite Hfg. destruct (g m) as [[fees [e|]]|]; auto.
Qed.

Lemma discovery_ignores_keeper depth mfd mfd' (ctx ctx' : Context) m :
  codec mfd = codec mfd' ->
  flatFees depth mfd ctx m = flatFees depth mfd' ctx' m.
Proof.
  intros Hcodec. revert m.
  induction depth as [|depth IH]; intros m; simpl; [reflexivity|].
  destruct m as [msg|msg|]; [| |reflexivity].
  - destruct (AccAddressFromBech32 _); [|reflexivity].
    now destruct (GetFlatFee (rewardsKeeper mfd) ctx a),
                 (GetFlatFee (rewardsKeeper mfd') ctx' a).
  - rewrite <- Hcodec.
    now rewrite (rangeWrapped_ext _ (flatFees depth mfd' ctx') _ _ IH).
Qed.

(** X5: two decorators with the same codec, over keepers that report the
    same minimum price, give every transaction the same verdict, whatever
    [GetFlatFee] answers in either keeper: no flat fee reaches the
    result of discovery or the decision. *)
Theorem flat_fee_lookup_never_matters depth mfd mfd' (ctx ctx' : Context)
    tx simulate :
  codec mfd = codec mfd' ->
  GetMinConsensusFee (rewardsKeeper mfd) ctx
  = GetMinConsensusFee (rewardsKeeper mfd') ctx' ->
  (forall m, getContractFlatFees AccAddressFromBech32 depth mfd ctx m
             = getContractFlatFees AccAddressFromBech32 depth mfd' ctx' m)
  /\ option_map spec.verdict
       (AnteHandle AccAddressFromBech32 depth mfd ctx tx simulate)
     = option_map spec.verdict
         (AnteHandle AccAddressFromBech32 depth mfd' ctx' tx simulate).
Proof.
  intros Hcodec Hprice.
  assert (D : forall m, flatFees depth mfd ctx m = flatFees depth mfd' ctx' m)
    by (intros m; now apply discovery_ignores_keeper).
  split; [exact D|].
  unfold AnteHandle. destruct simulate; [reflexivity|].
  destruct (asFeeTx tx) as [feeTx|]; [|reflexivity].
  rewrite <- Hprice.
  destruct (GetMinConsensusFee (rewardsKeeper mfd) ctx) as [p|]; [|reflexivity].
  destruct (DecCoin_IsZero p); [reflexivity|].
  destruct (Dec_IsZero _); [reflexivity|].
  rewrite (rangeMsgs_ext _ (flatFees depth mfd' ctx') _ D).
  destruct (rangeMsgs _ _ _) as [[total|err]|]; try reflexivity.
  destruct (Int_IsZero _); [reflexivity|].
  now destruct (Coins_IsAnyGTE _ _) as [[|]|v].
Qed.

(** *** When discovery succeeds *)

Lemma rangeWrapped_success (f : Msg -> option (Coins * option error))
    (cdc : C) vs flatfee total :
  rangeWrapped f cdc flatfee vs = Some (inl total) ->
  forall v, In v vs ->
    exists m fees, UnpackAny cdc v = Some m /\ f m = Some (fees, None).
Proof.
  revert flatfee. induction vs as [|v vs IH]; intros flatfee; simpl.
  - intros _ v [].
  - destruct (UnpackAny cdc v) as [m|] eqn:Hv; [|discriminate].
    destruct (f m) as [[fees [e|]]|] eqn:F; try discriminate.
    intros R v' [<-|Hin].
    + exists m, fees. auto.
    + now apply (IH _ R).
Qed.

Lemma discovers_readable mfd (ctx : Context) depth m fees :
  flatFees depth mfd ctx m = Some (fees, None) ->
  spec.Readable AccAddressFromBech32 mfd m.
Proof.
  revert m fees.
  induction depth as [|depth IH]; intros m fees; simpl; [discriminate|].
  destruct m as [msg|msg|].
  - destruct (AccAddressFromBech32 (wasmTypes.Contract msg)) as [ca|e] eqn:B;
      [|discriminate].
    intros _. now apply (spec.ReadableContract _ _ msg ca).
  - destruct (rangeWrapped _ _ _ _) as [[total|e]|] eqn:R; try discriminate.
    intros _. constructor.
    + intros v Hin.
      destruct (rangeWrapped_success _ _ _ _ _ R v Hin) as [m [f [Hv _]]].
      rewrite Hv. discriminate.
    + intros v m Hin Hv.
      destruct (rangeWrapped_success _ _ _ _ _ R v Hin) as [m' [f [Hv' Hm]]].
      rewrite Hv in Hv'. inversion Hv'; subst m'. now apply (IH m f).
  - intros _. constructor.
Qed.

Lemma readable_discovers mfd (ctx : Context) m :
  spec.Readable AccAddressFromBech32 mfd m ->
  spec.discovers AccAddressFromBech32 mfd ctx m.
Proof.
  induction 1 as [msg ca Hca| |msg Hdec _ IH].
  - exists 1%nat, []. simpl. rewrite Hca.
    now destruct (GetFlatFee _ _ _).
  - exists 1%nat, []. reflexivity.
  - assert (A : spec.allDiscover AccAddressFromBech32 mfd ctx (authz.Msgs msg)).
    { apply Forall_forall. intros v Hin.
      destruct (UnpackAny (codec mfd) v) as [m|] eqn:Hv.
      - exists m. split; [reflexivity|]. now apply (IH v).
      - now elim (Hdec v Hin). }
    apply allDiscover_at in A as [d A].
    exists (S d), []. simpl.
    pose proof (rangeWrapped_skip _ _ _ [] (A d (Nat.le_refl d)) []) as R.
    rewrite app_nil_r in R. rewrite R. reflexivity.
Qed.

(** X6: discovery succeeds on a message, at some call depth, exactly when
    everything under it can be read: every contract address parses and
    every wrapped message decodes, at every level.  What the keeper holds
    plays no part. *)
Theorem discovery_succeeds_iff_readable mfd (ctx : Context) m :
  spec.discovers AccAddressFromBech32 mfd ctx m
  <-> spec.Readable AccAddressFromBech32 mfd m.
Proof.
  split.
  - intros [depth [fees Hm]]. now apply (discovers_readable mfd ctx depth m fees).
  - apply readable_discovers.
Qed.

(** *** Wrapping messages in a [MsgExec] *)

Lemma rangeWrapped_as_rangeMsgs (f : Msg -> option (Coins * option error))
    (cdc : C) vs msgs :
  Forall2 (fun v m => UnpackAny cdc v = Some m) vs msgs ->
  forall flatfee, rangeWrapped f cdc flatfee vs = rangeMsgs f flatfee msgs.
Proof.
  induction 1 as [|v m vs msgs Hv _ IH]; intros flatfee; simpl; auto.
  rewrite Hv. destruct (f m) as [[fees [e|]]|]; auto.
Qed.

(** X7: a transaction whose only message is a [MsgExec] wrapping messages
    that all decode gets, with one more level of calls, the verdict of the
    transaction that carries the decoded messages directly, with the same
    fee fields and flag. *)
Theorem wrapping_keeps_verdict depth mfd (ctx : Context) msg msgs feeFields
    simulate :
  Forall2 (fun v m => UnpackAny (codec mfd) v = Some m)
          (authz.Msgs msg) msgs ->
  option_map spec.verdict
    (AnteHandle AccAddressFromBech32 (S depth) mfd ctx
       (mkTx [MsgExec msg] feeFields) simulate)
  = option_map spec.verdict
      (AnteHandle AccAddressFromBech32 depth mfd ctx
         (mkTx msgs feeFields) simulate).
Proof.
  intros Hdec. unfold AnteHandle. destruct simulate; [reflexivity|].
  cbn [asFeeTx GetMsgs].
  destruct feeFields as [feeTx|]; [|reflexivity].
  destruct (GetMinConsensusFee _ _) as [p|]; [|reflexivity].
  destruct (DecCoin_IsZero p); [reflexivity|].
  destruct (Dec_IsZero _); [reflexivity|].
  change (rangeMsgs (flatFees (S depth) mfd ctx) [] [MsgExec msg])
    with (match
             match rangeWrapped (flatFees depth mfd ctx)
                     (codec mfd) [] (authz.Msgs msg) with
             | None => None
             | Some (inr err) => Some ([], Some err)
             | Some (inl flatfee) => Some (flatfee, Coins_Validate flatfee)
             end
           with
           | None => None
           | Some (_, Some err) => Some (inr err)
           | Some (fees, None) => Some (inl (addEach [] fees))
           end).
  rewrite (rangeWrapped_as_rangeMsgs _ _ _ _ Hdec).
  destruct (rangeMsgs _ _ _) as [[total|err]|] eqn:R; try reflexivity.
  apply rangeMsgs_keeps in R. subst total.
  cbn [Coins_Validate addEach fold_left].
  destruct (Int_IsZero _); [reflexivity|].
  now destruct (Coins_IsAnyGTE _ _) as [[|]|v].
Qed.

(** *** The declared fee *)

(** X8: paying more never turns Proceed into a rejection or a panic:
    when a transaction proceeds and each of its fee entries is matched, in
    another fee whose denominations are all well formed, by an entry of
    the same denomination and at least its amount, the transaction with
    that other fee proceeds too. *)
Theorem paying_more_proceeds depth mfd (ctx : Context) msgs gas txFees
    txFees' :
  spec.wellFormed txFees' ->
  (forall coin, In coin txFees ->
     exists coin', In coin' txFees'
                   /\ Denom coin' = Denom coin
                   /\ Amount coin <= Amount coin') ->
  AnteHandle AccAddressFromBech32 depth mfd ctx
    (mkTx msgs (Some (mkFeeTx gas txFees))) false
  = Some (Next ctx (mkTx msgs (Some (mkFeeTx gas txFees))) false) ->
  AnteHandle AccAddressFromBech32 depth mfd ctx
    (mkTx msgs (Some (mkFeeTx gas txFees'))) false
  = Some (Next ctx (mkTx msgs (Some (mkFeeTx gas txFees'))) false).
Proof.
  intros Hwf Hmore. unfold AnteHandle. cbn [asFeeTx GetMsgs GetGas GetFee].
  destruct (GetMinConsensusFee _ _) as [p|]; [|reflexivity].
  destruct (DecCoin_IsZero p); [reflexivity|].
  destruct (Dec_IsZero _); [discriminate|].
  destruct (rangeMsgs _ _ _) as [[total|err]|]; [|discriminate|discriminate].
  set (minFee := minFeeExpected p (pkg.NewDecFromUint64 gas)).
  destruct (Int_IsZero (Amount minFee)) eqn:Z0; [reflexivity|].
  destruct (Coins_IsAnyGTE txFees [minFee]) as [[|]|v] eqn:B;
    try discriminate.
  intros _.
  apply IsAnyGTE_true in B as [Hnz [coin [Hin [Hd Ha]]]].
  destruct (Hmore coin Hin) as [coin' [Hin' [Hd' Ha']]].
  assert (B' : Coins_IsAnyGTE txFees' [minFee] = Done true).
  { destruct (proj2 (comparison_covers txFees' minFee Hwf)) as [E|E].
    - right. exists coin'. repeat split; [exact Hin'|congruence|lia].
    - rewrite Z0 in E. discriminate.
    - exact E. }
  now rewrite B'.
Qed.

End Coverage.

(** *** The gas limit and the rounding *)

Lemma roundHalfToEven_mono x y :
  x <= y -> spec.roundHalfToEven x <= spec.roundHalfToEven y.
Proof.
  intros Hxy. unfold spec.roundHalfToEven.
  change precisionReuse with 1000000000000000000.
  rewrite !Zeven_mod.
  split_tests; Z.to_euclidean_division_equations; lia.
Qed.

Lemma roundHalfToEven_zero x :
  spec.roundHalfToEven x = 0 <-> 2 * Z.abs x <= precisionReuse.
Proof.
  unfold spec.roundHalfToEven.
  change precisionReuse with 1000000000000000000.
  rewrite !Zeven_mod.
  split_tests; Z.to_euclidean_division_equations; lia.
Qed.

Lemma roundHalfToEven_below x :
  0 < x mod precisionReuse -> 2 * (x mod precisionReuse) < precisionReuse ->
  spec.roundHalfToEven x * precisionReuse < x.
Proof.
  unfold spec.roundHalfToEven.
  change precisionReuse with 1000000000000000000.
  rewrite !Zeven_mod. intros.
  split_tests; Z.to_euclidean_division_equations; lia.
Qed.

Lemma min_fee_mono (gasUnitPrice : DecCoin) (gas gas' : N) :
  0 <= Dec_i (DecCoin_Amount gasUnitPrice) ->
  (gas <= gas')%N ->
  Amount (minFeeExpected gasUnitPrice (pkg.NewDecFromUint64 gas))
  <= Amount (minFeeExpected gasUnitPrice (pkg.NewDecFromUint64 gas')).
Proof.
  intros Hp Hg. rewrite !min_fee_amount. apply roundHalfToEven_mono.
  unfold spec.scaledProduct. apply Z.mul_le_mono_nonneg_l; lia.
Qed.

Lemma min_fee_nonneg (gasUnitPrice : DecCoin) (gas : N) :
  0 <= Dec_i (DecCoin_Amount gasUnitPrice) ->
  0 <= Amount (minFeeExpected gasUnitPrice (pkg.NewDecFromUint64 gas)).
Proof.
  intros Hp. rewrite min_fee_amount.
  change 0 with (spec.roundHalfToEven 0) at 1.
  apply roundHalfToEven_mono. unfold spec.scaledProduct.
  apply Z.mul_nonneg_nonneg; lia.
Qed.

(** X9: for a price that is not negative, the expected minimum does not
    decrease when the gas limit grows, and it is never negative. *)
Theorem expected_minimum_grows_with_gas (gasUnitPrice : DecCoin)
    (gas gas' : N) :
  0 <= Dec_i (DecCoin_Amount gasUnitPrice) ->
  (gas <= gas')%N ->
  0 <= Amount (minFeeExpected gasUnitPrice (pkg.NewDecFromUint64 gas))
  /\ Amount (minFeeExpected gasUnitPrice (pkg.NewDecFromUint64 gas))
     <= Amount (minFeeExpected gasUnitPrice (pkg.NewDecFromUint64 gas')).
Proof.
  intros Hp Hg. split; [now apply min_fee_nonneg|now apply min_fee_mono].
Qed.

(** X10: the expected minimum is strictly below the exact product of price
    and gas limit whenever the fractional part of the product is not zero
    and below one half: [RoundInt] rounds such a product down. *)
Theorem expected_minimum_rounds_down (gasUnitPrice : DecCoin) (gas : N) :
  let x := spec.scaledProduct gasUnitPrice gas in
  0 < x mod precisionReuse ->
  2 * (x mod precisionReuse) < precisionReuse ->
  Amount (minFeeExpected gasUnitPrice (pkg.NewDecFromUint64 gas))
  * precisionReuse < x.
Proof.
  intros x Hpos Hhalf. rewrite min_fee_amount. fold x.
  now apply roundHalfToEven_below.
Qed.

Section Gas.

Context {Context K C : Type}.
Context `{RK : RewardsFeeReaderExpected Context K} `{CD : BinaryCodec C}.
Variable AccAddressFromBech32 : string -> AccAddress + error.

(** X11: with [simulate = false], a minimum price found and not zero, a
    gas limit that is not zero and discovery succeeding on every message,
    a fee transaction that declares no fee entry at all proceeds exactly
    when the product of price and gas limit is at most one half in
    absolute value, the expected minimum then rounding to zero. *)
Theorem empty_fee_proceeds_iff_small_product depth mfd (ctx : Context) tx
    feeTx gasUnitPrice :
  asFeeTx tx = Some feeTx ->
  GetMinConsensusFee (rewardsKeeper mfd) ctx = Some gasUnitPrice ->
  Dec_i (DecCoin_Amount gasUnitPrice) <> 0 ->
  GetGas feeTx <> 0%N ->
  GetFee feeTx = [] ->
  Forall (fun m => exists fees,
              getContractFlatFees AccAddressFromBech32 depth mfd ctx m
              = Some (fees, None))
         (GetMsgs tx) ->
  AnteHandle AccAddressFromBech32 depth mfd ctx tx false
  = Some (Next ctx tx false)
  <-> 2 * Z.abs (spec.scaledProduct gasUnitPrice (GetGas feeTx))
      <= precisionReuse.
Proof.
  intros Hfee Hprice Hnz Hgas Hempty Hmsgs.
  rewrite (handle_after_discovery _ _ _ _ _ _ _ Hfee Hprice Hnz Hgas Hmsgs).
  rewrite Hempty. rewrite <- roundHalfToEven_zero, <- min_fee_amount.
  unfold Coins_IsAnyGTE, Int_IsZero. cbn [anyGTE].
  destruct (Z.eqb_spec
              (Amount (minFeeExpected gasUnitPrice
                         (pkg.NewDecFromUint64 (GetGas feeTx)))) 0)
    as [E|E].
  - split; [intros _; exact E|reflexivity].
  - split; [discriminate|contradiction].
Qed.

(** X12: for a price that is not negative, declaring a smaller gas limit,
    still not zero, never turns Proceed into a rejection: the expected
    minimum is only the price times the declared gas limit. *)
Theorem lower_gas_limit_proceeds depth mfd (ctx : Context) msgs gas gas'
    txFees :
  (forall gasUnitPrice,
     GetMinConsensusFee (rewardsKeeper mfd) ctx = Some gasUnitPrice ->
     0 <= Dec_i (DecCoin_Amount gasUnitPrice)) ->
  (gas' <= gas)%N ->
  gas' <> 0%N ->
  AnteHandle AccAddressFromBech32 depth mfd ctx
    (mkTx msgs (Some (mkFeeTx gas txFees))) false
  = Some (Next ctx (mkTx msgs (Some (mkFeeTx gas txFees))) false) ->
  AnteHandle AccAddressFromBech32 depth mfd ctx
    (mkTx msgs (Some (mkFeeTx gas' txFees))) false
  = Some (Next ctx (mkTx msgs (Some (mkFeeTx gas' txFees))) false).
Proof.
  intros Hpos Hle Hgas'. unfold AnteHandle.
  cbn [asFeeTx GetMsgs GetGas GetFee].
  destruct (GetMinConsensusFee _ _) as [p|] eqn:P; [|reflexivity].
  specialize (Hpos p eq_refl).
  destruct (DecCoin_IsZero p); [reflexivity|].
  destruct (Dec_IsZero (pkg.NewDecFromUint64 gas)); [discriminate|].
  destruct (Dec_IsZero (pkg.NewDecFromUint64 gas')) eqn:G'.
  { apply gas_limit_zero in G'. contradiction. }
  destruct (rangeMsgs _ _ _) as [[total|err]|]; [|discriminate|discriminate].
  set (minFee := minFeeExpected p (pkg.NewDecFromUint64 gas)).
  set (minFee' := minFeeExpected p (pkg.NewDecFromUint64 gas')).
  pose proof (min_fee_nonneg p gas' Hpos) as Hlow.
  pose proof (min_fee_mono p gas' gas Hpos Hle) as Hup.
  fold minFee minFee' in Hlow, Hup.
  unfold Int_IsZero.
  destruct (Z.eqb_spec (Amount minFee') 0) as [Z0'|Z0']; [reflexivity|].
  destruct (Z.eqb_spec (Amount minFee) 0) as [Z0|Z0]; [lia|].
  destruct (Coins_IsAnyGTE txFees [minFee]) as [[|]|v] eqn:B;
    try discriminate.
  intros _.
  now rewrite (IsAnyGTE_lower txFees minFee minFee' eq_refl Hup Z0' B).
Qed.

End Gas.

(** *** Evaluations of the further properties *)

Lemma discovery_fails_by_decoding_or_address_witness :
  @nil Coin = []
  /\ (spec.unauthorized = spec.unauthorized
      \/ exists contract, parseAddress contract = inr spec.unauthorized).
Proof.
  apply (discovery_fails_by_decoding_or_address parseAddress 2%nat checker tt
           (exec [wasmAny "c1"; opaqueAny])).
  vm_compute. reflexivity.
Defined.

(** A declared fee of 499 uarch against a minimum of 500 uarch. *)
Lemma outcome_kinds_witness :
  let tx := feeTx 200000 [uarch 499] [execute "c1"] in
  let o := Return tt
             (Wrapf ErrInsufficientFee "tx fee %s is less than min fee: %s"
                [[uarch 499]; [uarch 500]]) in
  o = Next tt tx false
  \/ (exists err,
        o = Return tt err
        /\ (err = Wrap ErrTxDecode "Tx must be a FeeTx"
            \/ err = Wrap ErrInvalidRequest "tx gas limit is not set"
            \/ err = spec.unauthorized
            \/ (exists contract, parseAddress contract = inr err)
            \/ exists feeTx gasUnitPrice,
                 asFeeTx tx = Some feeTx
                 /\ GetMinConsensusFee (rewardsKeeper checker) tt
                    = Some gasUnitPrice
                 /\ err = Wrapf ErrInsufficientFee
                            "tx fee %s is less than min fee: %s"
                            [GetFee feeTx;
                             [minFeeExpected gasUnitPrice
                                (pkg.NewDecFromUint64 (GetGas feeTx))]]))
  \/ exists feeTx coin,
       asFeeTx tx = Some feeTx
       /\ In coin (GetFee feeTx)
       /\ reDnmMatch (Denom coin) = false
       /\ o = Panic (Plain ("invalid denom: " ++ Denom coin)%string).
Proof.
  intros tx o.
  apply (outcome_kinds parseAddress 2%nat checker tt tx false o).
  vm_compute. reflexivity.
Defined.

(** The second message has an address that does not parse; the declared
    fee would cover the minimum. *)
Lemma first_discovery_error_aborts_witness :
  AnteHandle parseAddress 1 checker tt
    (feeTx 200000 [uarch 500] [execute "c1"; execute ""; exec [opaqueAny]])
    false
  = Some (Return tt (Plain "empty address string is not allowed")).
Proof.
  apply (first_discovery_error_aborts parseAddress 1%nat checker tt _
           (mkFeeTx 200000 [uarch 500]) (price "uarch" 2500000000000000)
           [execute "c1"] (execute "") [exec [opaqueAny]] []).
  - reflexivity.
  - reflexivity.
  - simpl. lia.
  - simpl. lia.
  - reflexivity.
  - discovery_succeeds.
  - vm_compute. reflexivity.
Defined.

Lemma wrapped_address_error_unchanged_witness :
  exists d, forall depth, (d <= depth)%nat ->
    getContractFlatFees parseAddress depth checker tt
      (exec [wasmAny "c1"; wasmAny ""; opaqueAny])
    = Some ([], Some (Plain "empty address string is not allowed")).
Proof.
  apply (wrapped_address_error_unchanged parseAddress checker tt
           (authz.mkMsgExec "grantee" [wasmAny "c1"; wasmAny ""; opaqueAny])
           [wasmAny "c1"] (wasmAny "") [opaqueAny]
           (wasmTypes.mkMsgExecuteContract "" "")).
  - reflexivity.
  - repeat constructor. eexists. split; [reflexivity|].
    exists 1%nat, []. reflexivity.
  - reflexivity.
  - reflexivity.
Defined.

(** [registry] and [otherFlatFees] hold the same minimum price. *)
Lemma flat_fee_lookup_never_matters_witness :
  let tx := feeTx 200000 [uarch 499] [execute "c1"; exec [wasmAny "c2"]] in
  (forall m, getContractFlatFees parseAddress 3 checker tt m
             = getContractFlatFees parseAddress 3
                 (decorator otherFlatFees wasmOnly) tt m)
  /\ option_map spec.verdict (AnteHandle parseAddress 3 checker tt tx false)
     = option_map spec.verdict
         (AnteHandle parseAddress 3 (decorator otherFlatFees wasmOnly) tt
            tx false).
Proof.
  intros tx.
  apply (flat_fee_lookup_never_matters parseAddress 3%nat checker
           (decorator otherFlatFees wasmOnly) tt tt tx false).
  - reflexivity.
  - reflexivity.
Defined.

Lemma discovery_succeeds_iff_readable_witness :
  spec.Readable parseAddress checker (execute "c1").
Proof.
  apply (proj1 (discovery_succeeds_iff_readable parseAddress checker tt
                  (execute "c1"))).
  exists 1%nat, []. reflexivity.
Defined.

Lemma wrapping_keeps_verdict_witness :
  let feeFields := Some (mkFeeTx 200000 [uarch 499]) in
  option_map spec.verdict
    (AnteHandle parseAddress 2 checker tt
       (mkTx [exec [wasmAny "c1"; wasmAny "c2"]] feeFields) false)
  = option_map spec.verdict
      (AnteHandle parseAddress 1 checker tt
         (mkTx [MsgExecuteContract (wasmTypes.mkMsgExecuteContract "" "c1");
                MsgExecuteContract (wasmTypes.mkMsgExecuteContract "" "c2")]
            feeFields) false).
Proof.
  intros feeFields.
  apply (wrapping_keeps_verdict parseAddress 1%nat checker tt
           (authz.mkMsgExec "grantee" [wasmAny "c1"; wasmAny "c2"])).
  repeat constructor.
Defined.

(** 500 uarch proceeds; so does 600 uarch beside 3 of another coin. *)
Lemma paying_more_proceeds_witness :
  let tx := mkTx [execute "c1"]
              (Some (mkFeeTx 200000 [mkCoin "atom" 3; uarch 600])) in
  AnteHandle parseAddress 1 checker tt tx false = Some (Next tt tx false).
Proof.
  intros tx.
  apply (paying_more_proceeds parseAddress 1%nat checker tt [execute "c1"]
           200000%N [uarch 500] [mkCoin "atom" 3; uarch 600]).
  - repeat constructor.
  - intros coin [<-|[]]. exists (uarch 600).
    split; [right; left; reflexivity|]. split; [reflexivity|simpl; lia].
  - vm_compute. reflexivity.
Defined.

Lemma expected_minimum_grows_with_gas_witness :
  0 <= Amount (minFeeExpected (price "uarch" 2500000000000000)
                 (pkg.NewDecFromUint64 200))
  /\ Amount (minFeeExpected (price "uarch" 2500000000000000)
               (pkg.NewDecFromUint64 200))
     <= Amount (minFeeExpected (price "uarch" 2500000000000000)
                  (pkg.NewDecFromUint64 200000)).
Proof.
  apply (expected_minimum_grows_with_gas (price "uarch" 2500000000000000)
           200%N 200000%N).
  - simpl. lia.
  - lia.
Defined.

(** Price 0.0024 with gas 1000: the product is 2.4, the minimum 2. *)
Lemma expected_minimum_rounds_down_witness :
  Amount (minFeeExpected (price "uarch" 2400000000000000)
            (pkg.NewDecFromUint64 1000))
  * precisionReuse
  < spec.scaledProduct (price "uarch" 2400000000000000) 1000.
Proof.
  apply (expected_minimum_rounds_down (price "uarch" 2400000000000000) 1000%N).
  - vm_compute. reflexivity.
  - vm_compute. reflexivity.
Defined.

(** Price 0.0025 with gas 200: the product is one half, and a transaction
    that declares no fee proceeds. *)
Lemma empty_fee_proceeds_iff_small_product_witness :
  let tx := feeTx 200 [] [execute "c1"] in
  AnteHandle parseAddress 1 checker tt tx false = Some (Next tt tx false)
  <-> 2 * Z.abs (spec.scaledProduct (price "uarch" 2500000000000000) 200)
      <= precisionReuse.
Proof.
  intros tx.
  apply (empty_fee_proceeds_iff_small_product parseAddress 1%nat checker tt tx
           (mkFeeTx 200 []) (price "uarch" 2500000000000000)).
  - reflexivity.
  - reflexivity.
  - simpl. lia.
  - simpl. lia.
  - reflexivity.
  - discovery_succeeds.
Defined.

(** 250 uarch covers gas 100000 and, all the more, gas 50000. *)
Lemma lower_gas_limit_proceeds_witness :
  let tx := mkTx [execute "c1"] (Some (mkFeeTx 50000 [uarch 250])) in
  AnteHandle parseAddress 1 checker tt tx false = Some (Next tt tx false).
Proof.
  intros tx.
  apply (lower_gas_limit_proceeds parseAddress 1%nat checker tt [execute "c1"]
           100000%N 50000%N [uarch 250]).
  - intros gasUnitPrice E. vm_compute in E. inversion E. simpl. lia.
  - lia.
  - lia.
  - vm_compute. reflexivity.
Defined.
